(** * vs-deploy: value resolution ([values.ts]) and the HTTP deploy plugin

    A shallow embedding of the two TypeScript modules of the repository:
    the Value classes with [replaceWithValues], [resetScriptStates] and
    [toValueObjects], and [HttpPlugin.deployFile] of the HTTP plugin from
    the point where the file has been read.

    Conventions of the embedding.
    - A JavaScript string is the sequence of its UTF-16 code units; the
      model keeps the code units below 256, one [ascii] each.
    - A value of TypeScript type [any] is a term of [any]; a number is an
      integer.
    - Code that reads or writes the two module-level stores, or that may
      throw, lives in the monad [M]: a state transformer over [State]
      whose result is either a returned value or a thrown exception.
    - An array of Values lives in a heap: the closure that
      [toValueObjects] hands to every Value reads the array when it is
      called, not when it is made.
    - [helpers.ts], [contracts.ts] and the Node and VS Code APIs are not
      part of the sources.  The helpers are the methods of the class
      [Helpers]; the platform functions are the fields of [Platform] and
      two parameters of the plugin.

    The main theorems are marked C1 to C10 in their comments. *)

From Stdlib Require Import ZArith Ascii String List Lia Bool.
From stdpp Require Import base option list strings pretty gmap.

Local Open Scope Z_scope.

(** ** JavaScript values *)

#[warnings="-register-all"]
Inductive any : Type :=
| undefined
| null
| JBool (b : bool)
| JNum (n : Z)
| JStr (s : string)
| JBuffer (bytes : string)
| JObject (props : list (string * any)).

(** What [throw] carries. *)
Inductive exn : Type :=
| TypeError (msg : string)
| RangeError (msg : string)
| Error (msg : string)
| Thrown (v : any).

(** ToBoolean of ECMAScript, as used by [if (x)] and [filter(x => x)]. *)
Definition truthy (x : any) : bool :=
  match x with
  | undefined | null => false
  | JBool b => b
  | JNum n => negb (n =? 0)
  | JStr s => negb (String.eqb s "")
  | JBuffer _ | JObject _ => true
  end.

(** [a !== b] on the values that serve as ids here (numbers, or an id
    that was never assigned); two objects are never the same object. *)
Definition strict_neq (a b : any) : bool :=
  match a, b with
  | undefined, undefined => false
  | null, null => false
  | JBool x, JBool y => negb (Bool.eqb x y)
  | JNum x, JNum y => negb (x =? y)
  | JStr x, JStr y => negb (String.eqb x y)
  | _, _ => true
  end.

(** ** Strings *)

Module Str.

Definition dollar : ascii := "$"%char.
Definition lbrace : ascii := "{"%char.
Definition rbrace : ascii := "}"%char.

Fixpoint mem (c : ascii) (s : string) : bool :=
  match s with
  | EmptyString => false
  | String d r => Ascii.eqb c d || mem c r
  end.

(** The White_Space and LineTerminator code units below 256. *)
Definition is_space (c : ascii) : bool :=
  let n := nat_of_ascii c in
  ((9 <=? n)%nat && (n <=? 13)%nat) || (n =? 32)%nat || (n =? 160)%nat.

Fixpoint trimStart (s : string) : string :=
  match s with
  | EmptyString => EmptyString
  | String c r => if is_space c then trimStart r else s
  end.

Fixpoint trimEnd (s : string) : string :=
  match s with
  | EmptyString => EmptyString
  | String c r =>
      match trimEnd r with
      | EmptyString => if is_space c then EmptyString else String c EmptyString
      | r' => String c r'
      end
  end.

(** [String.prototype.trim]. *)
Definition trim (s : string) : string := trimEnd (trimStart s).

(** [toLowerCase] on one code unit: the letters A to Z and, above 127,
    the capital letters of Latin-1 (all of 192 to 222 but the
    multiplication sign). *)
Definition lower (c : ascii) : ascii :=
  let n := nat_of_ascii c in
  if (((65 <=? n) && (n <=? 90))
      || ((192 <=? n) && (n <=? 222) && negb (n =? 215)))%nat%bool
  then ascii_of_nat (n + 32) else c.

Fixpoint toLowerCase (s : string) : string :=
  match s with
  | EmptyString => EmptyString
  | String c r => String (lower c) (toLowerCase r)
  end.

(** [s.substring(k)]. *)
Fixpoint drop (k : nat) (s : string) : string :=
  match k, s with
  | O, _ => s
  | S k', String _ r => drop k' r
  | S _, EmptyString => EmptyString
  end.

End Str.

(** ** The helper functions of [helpers.ts]

    [helpers.ts] is not among the sources, so the functions that
    [values.ts] and the plugin call are parameters.  The laws are the part
    of their behaviour the theorems rely on.  [toStringSafe_def] and the
    second argument of [toBooleanSafe] are the calls that pass a default
    value. *)
Class Helpers : Type := {
  toStringSafe : any -> string;
  toStringSafe_def : any -> string -> string;
  normalizeString : any -> string;
  isEmptyString : any -> bool;
  isNullOrUndefined : any -> bool;
  toBooleanSafe : any -> option bool -> bool;
  cloneObject : any -> any;
  toStringSafe_JStr : forall s, toStringSafe (JStr s) = s;
  isNullOrUndefined_JStr : forall s, isNullOrUndefined (JStr s) = false;
  isEmptyString_undefined : isEmptyString undefined = true;
  isEmptyString_empty : isEmptyString (JStr "") = true
}.

(** ** State, exceptions and the monad *)

(** The two module-level variables of [values.ts]; [None] is JavaScript's
    [undefined], the value of a [let] without initializer.  [getValue_calls]
    records, newest first, the script paths whose [getValue] was invoked. *)
Record State : Type := {
  globalScriptValueState : option (gmap string any);
  scriptValueStates : option (gmap string any);
  getValue_calls : list string
}.

Inductive outcome (A : Type) : Type :=
| Ret (a : A)
| Throw (e : exn).
Arguments Ret {A} a.
Arguments Throw {A} e.

Definition M (A : Type) : Type := State -> outcome A * State.

Definition ret {A} (a : A) : M A := fun st => (Ret a, st).
Definition throw {A} (e : exn) : M A := fun st => (Throw e, st).
Definition bind {A B} (m : M A) (k : A -> M B) : M B :=
  fun st => match m st with
            | (Ret a, st') => k a st'
            | (Throw e, st') => (Throw e, st')
            end.
(** [try { m } catch (e) { h e }]. *)
Definition try_catch {A} (m : M A) (h : exn -> M A) : M A :=
  fun st => match m st with
            | (Ret a, st') => (Ret a, st')
            | (Throw e, st') => h e st'
            end.
Definition lift {A} (o : outcome A) : M A := fun st => (o, st).


#[export] Instance M_ret : MRet M := @ret.
#[export] Instance M_bind : MBind M := fun A B k m => bind m k.

(** ** Placeholders

    The regular expression of [replaceWithValues] matches a dollar sign,
    an opening brace, the longest run of characters other than a closing
    brace, and a closing brace; with the flag [g] every match is replaced,
    the search going from left to right and resuming after each match. *)

Module Placeholder.

(** A subject string is cut into the characters outside every match and
    the matches, each with what its third group ([varName]) captured. *)
Inductive piece : Type :=
| Lit (c : ascii)
| Tok (varName : string).

(** The run of characters other than a closing brace from the start of
    [s], when a closing brace ends it. *)
Fixpoint until_close (s : string) : option string :=
  match s with
  | EmptyString => None
  | String c r =>
      if Ascii.eqb c Str.rbrace then Some EmptyString
      else match until_close r with
           | Some n => Some (String c n)
           | None => None
           end
  end.

(** The search resumes after a match: [skip] counts the characters of
    the match that are still to be passed over. *)
Fixpoint scan (skip : nat) (s : string) : list piece :=
  match s with
  | EmptyString => []
  | String c r =>
      match skip with
      | S k => scan k r
      | O =>
          match r with
          | String d r' =>
              if Ascii.eqb c Str.dollar && Ascii.eqb d Str.lbrace then
                match until_close r' with
                | Some n => Tok n :: scan (2 + String.length n) r
                | None => Lit c :: scan 0 r
                end
              else Lit c :: scan 0 r
          | EmptyString => [Lit c]
          end
      end
  end.

Definition pieces (s : string) : list piece := scan 0 s.

(** The text of a match ([match], the callback's first argument). *)
Definition token (varName : string) : string :=
  String Str.dollar (String Str.lbrace (varName +:+ String Str.rbrace EmptyString)).

Definition render (p : piece) : string :=
  match p with
  | Lit c => String c EmptyString
  | Tok n => token n
  end.

(** [str.replace(re, callback)]: the callback runs once per match, from
    left to right, and its results replace the matches. *)
Fixpoint replace (callback : string -> string -> M string) (ps : list piece)
  : M string :=
  match ps with
  | [] => mret EmptyString
  | Lit c :: ps' => r ← replace callback ps'; mret (String c r)
  | Tok n :: ps' =>
      x ← callback (token n) n;
      r ← replace callback ps';
      mret (x +:+ r)
  end.

(** The subject when every match is replaced by itself. *)
Fixpoint render_all (ps : list piece) : string :=
  match ps with
  | [] => EmptyString
  | p :: ps' => render p +:+ render_all ps'
  end.

(** The pieces of a subject without a match. *)
Fixpoint lits (s : string) : list piece :=
  match s with
  | EmptyString => []
  | String c r => Lit c :: lits r
  end.

(** The subject [s] contains the token of name [n] as a substring. *)
Definition occurs (n s : string) : Prop :=
  Str.mem Str.rbrace n = false /\
  exists pre post, s = pre +:+ token n +:+ post.

(** The names of all tokens that are substrings of [s]. *)
Fixpoint candidates (s : string) : list string :=
  match s with
  | EmptyString => []
  | String c r =>
      match r with
      | String d r' =>
          if Ascii.eqb c Str.dollar && Ascii.eqb d Str.lbrace then
            match until_close r' with
            | Some n => n :: candidates r
            | None => candidates r
            end
          else candidates r
      | EmptyString => []
      end
  end.

End Placeholder.

(** ** The data model *)

(** The value definitions of the configuration ([contracts.ts]); a field
    that a definition does not set is [undefined]. *)
Module deploy_contracts.

Record ValueWithName : Type := {
  name : any;
  type : any;
  value : any;
  code : any;
  alias : any;
  file : any;
  asBinary : any;
  encoding : any;
  usePlaceholders : any;
  script : any;
  options : any
}.

Record DeployConfiguration : Type := { globals : any }.

End deploy_contracts.

(** The five classes that extend [ValueBase]. *)
Inductive ValueClass : Type :=
| StaticValue | CodeValue | EnvValue | FileValue | ScriptValue.

(** An array of Values lives in the heap, at a location: the closure that
    [toValueObjects] stores in [otherValueProvider] keeps the array
    [result] itself, not a copy of it. *)
Abbreviation loc := nat (only parsing).

(** The one closure ever stored in [otherValueProvider], with the array
    it captured: [() => result.filter(x => x.id !== newValue.id)].  The
    [newValue] it captured is the object it is stored in, the receiver
    of the [otherValues] getter that calls it. *)
Inductive Provider : Type :=
| SiblingFilter (result : loc).

Record ValueBase : Type := {
  class_of : ValueClass;
  _ITEM : deploy_contracts.ValueWithName;
  id : any;
  otherValueProvider : option Provider;
  _config : option deploy_contracts.DeployConfiguration
}.

Abbreviation Heap := (gmap nat (list ValueBase)) (only parsing).

(** [new C(item, cfg)]: the constructor of [ValueBase] supplies an item
    when none is given; [id] and [otherValueProvider] start unset. *)
Definition new (c : ValueClass) (item : option deploy_contracts.ValueWithName)
    (cfg : option deploy_contracts.DeployConfiguration) : ValueBase :=
  let item :=
    match item with
    | Some i => i
    | None =>
        {| deploy_contracts.name := undefined; deploy_contracts.type := undefined;
           deploy_contracts.value := undefined; deploy_contracts.code := undefined;
           deploy_contracts.alias := undefined; deploy_contracts.file := undefined;
           deploy_contracts.asBinary := undefined;
           deploy_contracts.encoding := undefined;
           deploy_contracts.usePlaceholders := undefined;
           deploy_contracts.script := undefined;
           deploy_contracts.options := undefined |}
    end in
  {| class_of := c; _ITEM := item; id := undefined; otherValueProvider := None;
     _config := match c with ScriptValue => cfg | _ => None end |}.

Definition set_id (x : any) (v : ValueBase) : ValueBase :=
  {| class_of := class_of v; _ITEM := _ITEM v; id := x;
     otherValueProvider := otherValueProvider v; _config := _config v |}.

Definition set_otherValueProvider (p : Provider) (v : ValueBase) : ValueBase :=
  {| class_of := class_of v; _ITEM := _ITEM v; id := id v;
     otherValueProvider := Some p; _config := _config v |}.

Definition item (v : ValueBase) : deploy_contracts.ValueWithName := _ITEM v.

(** The same Value over a definition whose [alias] is [a]. *)
Definition set_alias (a : any) (v : ValueBase) : ValueBase :=
  let i := _ITEM v in
  {| class_of := class_of v;
     _ITEM :=
       {| deploy_contracts.name := deploy_contracts.name i;
          deploy_contracts.type := deploy_contracts.type i;
          deploy_contracts.value := deploy_contracts.value i;
          deploy_contracts.code := deploy_contracts.code i;
          deploy_contracts.alias := a;
          deploy_contracts.file := deploy_contracts.file i;
          deploy_contracts.asBinary := deploy_contracts.asBinary i;
          deploy_contracts.encoding := deploy_contracts.encoding i;
          deploy_contracts.usePlaceholders := deploy_contracts.usePlaceholders i;
          deploy_contracts.script := deploy_contracts.script i;
          deploy_contracts.options := deploy_contracts.options i |};
     id := id v; otherValueProvider := otherValueProvider v;
     _config := _config v |}.

(** [ValueBase.otherValues].  The provider's body cannot throw, so the
    [try] always takes its first branch; every element is an object,
    which [filter(x => x)] keeps. *)
Definition call_provider (h : Heap) (self : ValueBase) (p : Provider)
    : list ValueBase :=
  match p with
  | SiblingFilter result =>
      filter (fun x => Is_true (strict_neq (id x) (id self))) (default [] (h !! result))
  end.

Definition otherValues (h : Heap) (self : ValueBase) : list ValueBase :=
  let result := [] in
  match otherValueProvider self with
  | Some ovp => result ++ call_provider h self ovp
  | None => result
  end.

(** ** Names *)

Section Names.
Context `{Helpers}.

(** [EnvValue.realName]: the [name] getter of [ValueBase]. *)
Definition realName (v : ValueBase) : any := deploy_contracts.name (item v).

Definition alias (v : ValueBase) : any := deploy_contracts.alias (item v).

(** The [name] getter: [EnvValue] overrides the one of [ValueBase]. *)
Definition name (v : ValueBase) : any :=
  match class_of v with
  | EnvValue => if isEmptyString (alias v) then realName v else alias v
  | _ => deploy_contracts.name (item v)
  end.

End Names.

(** ** Placeholder substitution: [replaceWithValues] *)

Section Substitution.
Context `{Helpers}.

(** The [value] getter of the Values at hand (dynamic dispatch). *)
Variable value : ValueBase -> M any.

(** The accessor of [v] throws, whatever the state. *)
Definition always_throws (v : ValueBase) : Prop :=
  forall st, exists e st', value v st = (Throw e, st').

(** The callback handed to [str.replace] for the Value [v]. *)
Definition callback (v : ValueBase) (vn : string)
    (match_ varName : string) : M string :=
  let newValue := match_ in
  if String.eqb (normalizeString (JStr varName)) vn then
    try_catch (x ← value v; mret (toStringSafe x)) (fun _ => mret newValue)
  else mret newValue.

(** One turn of [allValues.forEach]. *)
Definition pass (v : ValueBase) (str : string) : M string :=
  let vn := normalizeString (name v) in
  Placeholder.replace (callback v vn) (Placeholder.pieces str).

Fixpoint forEach_pass (allValues : list ValueBase) (str : string) : M string :=
  match allValues with
  | [] => mret str
  | v :: rest => str' ← pass v str; forEach_pass rest str'
  end.

(** [values] is the array that [asArray] makes of the argument; its
    elements are objects, which [filter(x => x)] keeps. *)
Definition replaceWithValues (values : list ValueBase) (val : any) : M any :=
  let allValues := values in
  if negb (isNullOrUndefined val) then
    let str := toStringSafe val in
    str' ← forEach_pass allValues str;
    mret (JStr str')
  else mret val.

End Substitution.

(** ** The platform and the script modules *)

(** The arguments bundle a script module's [getValue] receives.  The
    properties defined by [Object.defineProperty] with accessors are the
    computations those accessors run. *)
Record ScriptValueProviderArguments : Type := {
  emitGlobal : list any -> M any;
  args_globals : any;
  args_globalState : M (option (gmap string any));
  args_name : any;
  args_options : any;
  args_others : list (string * M any);
  args_replaceWithValues : any -> M any;
  args_require : any -> M any;
  args_state_get : M any;
  args_state_set : any -> M ()
}.

(** What a module has under a property: a function, or a value that is
    not one ([undefined] when the module has no such property). *)
Inductive Export : Type :=
| Function (f : ScriptValueProviderArguments -> M any)
| NotFunction (v : any).

(** [if (e)]: a function is an object, and so truthy. *)
Definition Export_truthy (e : Export) : bool :=
  match e with
  | Function _ => true
  | NotFunction v => truthy v
  end.

(** What [loadModule] returns for a script. *)
Record ScriptValueModule : Type := {
  getValue : Export
}.

(** What [eval] sees in [CodeValue.value]. *)
Record CodeScope : Type := {
  scope_cwd : string;
  scope_homeDir : string;
  scope_globalState : option (gmap string any);
  scope_me : ValueBase;
  scope_others : list (string * M any);
  scope_require : any -> M any;
  scope_workspaceRoot : any
}.

(** Node, VS Code and the world outside the process.  [loadModule]
    answers for a freshly loaded file, as [delete require.cache[script]]
    makes sure; its result is [None] for a falsy module. *)
Record Platform : Type := {
  process_env : list (string * string);
  process_cwd : string;
  OS_homedir : string;
  workspace_rootPath : any;
  Path_isAbsolute : any -> outcome bool;
  Path_join : any -> any -> outcome any;
  Path_resolve : any -> outcome string;
  FS_existsSync : string -> bool;
  FS_readFileSync : string -> outcome string;
  Buffer_toString : string -> string -> outcome string;
  loadModule : string -> outcome (option ScriptValueModule);
  require : string -> M any;
  EVENTS_emit : list any -> M any;
  eval : string -> CodeScope -> M any
}.

(** ** The module-level stores *)

(** [let globalScriptValueState: Object; let scriptValueStates: Object;]
    with no call of the instrumented [getValue] yet. *)
Definition initial_State : State :=
  {| globalScriptValueState := None; scriptValueStates := None;
     getValue_calls := [] |}.

Definition resetScriptStates : M () := fun st =>
  (Ret (),
   {| globalScriptValueState := Some ∅; scriptValueStates := Some ∅;
      getValue_calls := getValue_calls st |}).

(** The accessors of [args.state]: [scriptValueStates[script]] read and
    written.  Indexing [undefined] is a TypeError.  [script] is an
    absolute path, never the name of a property that objects inherit. *)
Definition state_get (script : string) : M any := fun st =>
  match scriptValueStates st with
  | Some states => (Ret (default undefined (states !! script)), st)
  | None => (Throw (TypeError "Cannot read property of undefined"), st)
  end.

Definition state_set (script : string) (newValue : any) : M () := fun st =>
  match scriptValueStates st with
  | Some states =>
      (Ret (),
       {| globalScriptValueState := globalScriptValueState st;
          scriptValueStates := Some (<[script := newValue]> states);
          getValue_calls := getValue_calls st |})
  | None => (Throw (TypeError "Cannot set property of undefined"), st)
  end.

Definition globalState_get : M (option (gmap string any)) := fun st =>
  (Ret (globalScriptValueState st), st).

(** Instrumentation: the call [scriptModule.getValue(args)] is logged. *)
Definition log_getValue (script : string) : M () := fun st =>
  (Ret (),
   {| globalScriptValueState := globalScriptValueState st;
      scriptValueStates := scriptValueStates st;
      getValue_calls := script :: getValue_calls st |}).

(** ** The [value] getters *)

Section Getters.
Context `{Helpers}.
Variable P : Platform.
Variable h : Heap.

(** *** [StaticValue] *)
Definition StaticValue_value (me : ValueBase) : M any :=
  mret (deploy_contracts.value (item me)).

(** *** [EnvValue] *)

(** The [for (let p in process.env)] loop with its [break]. *)
Fixpoint env_loop (myName : string) (env : list (string * string)) : any :=
  match env with
  | [] => undefined
  | (p, x) :: rest =>
      if String.eqb (Str.trim (toStringSafe (JStr p))) myName then JStr x
      else env_loop myName rest
  end.

Definition EnvValue_value (me : ValueBase) : M any :=
  let myName := Str.trim (toStringSafe (realName me)) in
  mret (env_loop myName (process_env P)).

(** The [value] getter of the sibling Values (dynamic dispatch). *)
Variable value : ValueBase -> M any.

(** [Object.defineProperty(o, p, { configurable: true, get })]: a
    property defined again keeps its place and takes the new getter.
    The list is in the order of definition; the order in which an
    enumeration lists the keys, which puts the keys that are array
    indices first, is not part of the model. *)
Fixpoint defineProperty {A} (o : list (string * A)) (p : string) (g : A)
    : list (string * A) :=
  match o with
  | [] => [(p, g)]
  | (q, g') :: o' =>
      if String.eqb q p then (q, g) :: o' else (q, g') :: defineProperty o' p g
  end.

(** The [forEach] that fills [$others] and [others]. *)
Definition define_others (ovs : list ValueBase) : list (string * M any) :=
  fold_left
    (fun others ov =>
       let propertyName := toStringSafe (name ov) in
       if String.eqb "" propertyName then others
       else defineProperty others propertyName (value ov))
    ovs [].

(** [file = Path.join(rootPath, file)] unless absolute, then
    [Path.resolve(file)]. *)
Definition resolve_path (file : any) : outcome string :=
  match Path_isAbsolute P file with
  | Throw e => Throw e
  | Ret true =>
      Path_resolve P file
  | Ret false =>
      match Path_join P (workspace_rootPath P) file with
      | Throw e => Throw e
      | Ret file' => Path_resolve P file'
      end
  end.

(** *** [CodeValue] *)
Definition CodeValue_value (me : ValueBase) : M any :=
  globalState ← globalState_get;
  let others := define_others (otherValues h me) in
  eval P (toStringSafe (deploy_contracts.code (item me)))
    {| scope_cwd := process_cwd P; scope_homeDir := OS_homedir P;
       scope_globalState := globalState; scope_me := me;
       scope_others := others;
       scope_require := fun id => require P (toStringSafe id);
       scope_workspaceRoot := workspace_rootPath P |}.

(** *** [FileValue] *)
Definition FileValue_value (me : ValueBase) : M any :=
  let file := toStringSafe (deploy_contracts.file (item me)) in
  file ← replaceWithValues value (otherValues h me) (JStr file);
  file ← lift (resolve_path file);
  content ← lift (FS_readFileSync P file);
  if truthy (JBuffer content) then
    if toBooleanSafe (deploy_contracts.asBinary (item me)) None then
      mret (JBuffer content)
    else
      let enc := normalizeString (deploy_contracts.encoding (item me)) in
      let enc := if String.eqb "" enc then "utf8" else enc in
      str ← lift (Buffer_toString P content enc);
      if toBooleanSafe (deploy_contracts.usePlaceholders (item me)) None then
        replaceWithValues value (otherValues h me) (JStr str)
      else mret (JStr str)
  else mret (JBuffer content).

(** *** [ScriptValue] *)

(** [this._config || {}], then [.globals]. *)
Definition config_globals (me : ValueBase) : any :=
  match _config me with
  | Some cfg => deploy_contracts.globals cfg
  | None => undefined
  end.

Definition script_args (me : ValueBase) (script : string)
    : ScriptValueProviderArguments :=
  {| emitGlobal := EVENTS_emit P;
     args_globals := cloneObject (config_globals me);
     args_globalState := globalState_get;
     args_name := name me;
     args_options := cloneObject (deploy_contracts.options (item me));
     args_others := define_others (otherValues h me);
     args_replaceWithValues := fun val =>
       replaceWithValues value (otherValues h me) val;
     args_require := fun id => require P (toStringSafe id);
     args_state_get := state_get script;
     args_state_set := state_set script |}.

(** The getter from the test of [script] on: what runs once the
    placeholders of the configured path are replaced. *)
Definition ScriptValue_run (me : ValueBase) (script : any) : M any :=
  let result := undefined in
  if negb (isEmptyString script) then
    script ← lift (resolve_path script);
    if FS_existsSync P script then
      scriptModule ← lift (loadModule P script);
      match scriptModule with
      | Some scriptModule =>
          if Export_truthy (getValue scriptModule) then
            match getValue scriptModule with
            | Function getValue =>
                _ ← log_getValue script;
                getValue (script_args me script)
            | NotFunction _ =>
                throw (TypeError "scriptModule.getValue is not a function")
            end
          else mret result
      | None => mret result
      end
    else mret result
  else mret result.

Definition ScriptValue_value (me : ValueBase) : M any :=
  let script := toStringSafe (deploy_contracts.script (item me)) in
  script ← replaceWithValues value (otherValues h me) (JStr script);
  ScriptValue_run me script.

(** The path [script] is one for which the getter stops short of
    [getValue]. *)
Definition no_getValue (script : any) : Prop :=
  script = JStr ""
  \/ isEmptyString script = true
  \/ exists p, resolve_path script = Ret p
               /\ (FS_existsSync P p = false
                   \/ loadModule P p = Ret None
                   \/ exists m, loadModule P p = Ret (Some m)
                                 /\ Export_truthy (getValue m) = false).

(** The path [script] leads to a module whose [getValue] is [f]. *)
Definition runs_getValue (script : any) (p : string)
    (f : ScriptValueProviderArguments -> M any) : Prop :=
  isEmptyString script = false
  /\ resolve_path script = Ret p
  /\ FS_existsSync P p = true
  /\ exists m, loadModule P p = Ret (Some m) /\ getValue m = Function f.

(** *** Dispatch on the class of the receiver *)
Definition value_of (me : ValueBase) : M any :=
  match class_of me with
  | StaticValue => StaticValue_value me
  | CodeValue => CodeValue_value me
  | EnvValue => EnvValue_value me
  | FileValue => FileValue_value me
  | ScriptValue => ScriptValue_value me
  end.

End Getters.

(** The getters call one another through the sibling Values; [stack] is
    the number of nested getter calls the engine still has room for, and
    a call beyond it throws as the engine does. *)
Fixpoint value `{Helpers} (P : Platform) (h : Heap) (stack : nat)
    (me : ValueBase) : M any :=
  match stack with
  | O => throw (RangeError "Maximum call stack size exceeded")
  | S n => value_of P h (value P h n) me
  end.

(** ** [toValueObjects] *)

Section Construction.
Context `{Helpers}.

(** The [switch] on the normalized [type]: the new object, if any. *)
Definition construct (i : deploy_contracts.ValueWithName)
    (cfg : option deploy_contracts.DeployConfiguration) : option ValueBase :=
  let t := normalizeString (deploy_contracts.type i) in
  if String.eqb t "" || String.eqb t "static" then
    Some (new StaticValue (Some i) None)
  else if String.eqb t "code" then
    Some (new CodeValue (Some i) None)
  else if String.eqb t "env" || String.eqb t "environment" then
    Some (new EnvValue (Some i) None)
  else if String.eqb t "file" then
    Some (new FileValue (Some i) None)
  else if String.eqb t "script" then
    Some (new ScriptValue (Some i) cfg)
  else None.

(** [result.push(x)] on the array at [result]. *)
Definition push (result : loc) (x : ValueBase) (h : Heap) : Heap :=
  <[result := default [] (h !! result) ++ [x]]> h.

(** The body of the [forEach] callback for the item [i] at index [idx]. *)
Definition forEach_body (cfg : option deploy_contracts.DeployConfiguration)
    (result : loc) (i : deploy_contracts.ValueWithName) (idx : nat) (h : Heap)
    : Heap :=
  match construct i cfg with
  | Some newValue =>
      let newValue := set_id (JNum (Z.of_nat idx)) newValue in
      let newValue := set_otherValueProvider (SiblingFilter result) newValue in
      push result newValue h
  | None => h
  end.

Fixpoint forEach_item (cfg : option deploy_contracts.DeployConfiguration)
    (result : loc) (items : list deploy_contracts.ValueWithName) (idx : nat)
    (h : Heap) : Heap :=
  match items with
  | [] => h
  | i :: rest =>
      forEach_item cfg result rest (S idx) (forEach_body cfg result i idx h)
  end.

(** [items] is the array that [asArray] makes of the argument, [None]
    standing for a falsy entry; [filter(i => i)] drops those before the
    indices are counted.  The result is the location of the new array
    and the heap that holds it. *)
Definition toValueObjects (items : list (option deploy_contracts.ValueWithName))
    (cfg : option deploy_contracts.DeployConfiguration) (h : Heap)
    : loc * Heap :=
  let result := fresh (dom h) in
  let h := <[result := []]> h in
  (result, forEach_item cfg result (omap (fun i => i) items) 0 h).

(** The heap after a call. *)
Definition toValueObjects_heap
    (items : list (option deploy_contracts.ValueWithName))
    (cfg : option deploy_contracts.DeployConfiguration) (h : Heap) : Heap :=
  (toValueObjects items cfg h).2.

(** The array a call returns. *)
Definition toValueObjects_array
    (items : list (option deploy_contracts.ValueWithName))
    (cfg : option deploy_contracts.DeployConfiguration) (h : Heap)
    : list ValueBase :=
  default [] (toValueObjects_heap items cfg h !! (toValueObjects items cfg h).1).

(** The new object with its [id] and its provider set. *)
Definition wire (result : loc) (idx : nat) (newValue : ValueBase) : ValueBase :=
  set_otherValueProvider (SiblingFilter result)
    (set_id (JNum (Z.of_nat idx)) newValue).

(** The Values the [forEach] pushes for [items], counted from [idx]. *)
Fixpoint pushed (cfg : option deploy_contracts.DeployConfiguration)
    (result : loc) (items : list deploy_contracts.ValueWithName) (idx : nat)
    : list ValueBase :=
  match items with
  | [] => []
  | i :: rest =>
      match construct i cfg with
      | Some newValue => wire result idx newValue :: pushed cfg result rest (S idx)
      | None => pushed cfg result rest (S idx)
      end
  end.

(** The entries whose type tag the [switch] knows. *)
Definition recognized (cfg : option deploy_contracts.DeployConfiguration)
    (i : deploy_contracts.ValueWithName) : bool :=
  match construct i cfg with
  | Some _ => true
  | None => false
  end.

(** How many of the entries produce a Value. *)
Fixpoint count_recognized (cfg : option deploy_contracts.DeployConfiguration)
    (items : list deploy_contracts.ValueWithName) : nat :=
  match items with
  | [] => 0
  | i :: rest =>
      (if recognized cfg i then 1 else 0) + count_recognized cfg rest
  end.

End Construction.

(** ** [String.prototype.replace] with a literal pattern and a template

    The seven regular expressions of [parsePlaceHolders] have the flag
    [i] and not [g]: each spells one token, letter case ignored, in four
    groups (the dollar sign, the opening brace, the name, the closing
    brace), and only the first match in the subject is replaced.  The
    second argument is a string, so the dollar patterns in it are
    expanded as GetSubstitution of ECMAScript prescribes. *)
Module JSReplace.

(** A match of [pat] at the start of [s]: the text matched and the rest. *)
Fixpoint match_here (pat s : string) : option (string * string) :=
  match pat with
  | EmptyString => Some (EmptyString, s)
  | String p pat' =>
      match s with
      | EmptyString => None
      | String c s' =>
          if Ascii.eqb (Str.lower c) (Str.lower p) then
            match match_here pat' s' with
            | Some (m, r) => Some (String c m, r)
            | None => None
            end
          else None
      end
  end.

(** The leftmost match: what precedes it, the match, what follows it. *)
Fixpoint search (pat s : string) : option (string * string * string) :=
  match match_here pat s with
  | Some (m, r) => Some (EmptyString, m, r)
  | None =>
      match s with
      | EmptyString => None
      | String c s' =>
          match search pat s' with
          | Some (b, m, r) => Some (String c b, m, r)
          | None => None
          end
      end
  end.

(** The four groups of a match. *)
Definition captures (m : string) : list string :=
  [ String.substring 0 1 m; String.substring 1 1 m;
    String.substring 2 (String.length m - 3) m;
    String.substring (String.length m - 1) 1 m ].

Definition digit (c : ascii) : option nat :=
  let n := nat_of_ascii c in
  if ((48 <=? n)%nat && (n <=? 57)%nat)%bool then Some (n - 48)%nat else None.

(** The [n]-th group when [1 <= n <= m]. *)
Definition group (caps : list string) (n : nat) : option string :=
  match n with
  | O => None
  | S k => caps !! k
  end.

Section Expand.
Variables (caps : list string) (matched before after : string).

Fixpoint expand (template : string) : string :=
  match template with
  | EmptyString => EmptyString
  | String c t =>
      if Ascii.eqb c "$" then
        match t with
        | EmptyString => String c EmptyString
        | String d t' =>
            if Ascii.eqb d "$" then String "$" (expand t')
            else if Ascii.eqb d "&" then matched +:+ expand t'
            else if Ascii.eqb d "`" then before +:+ expand t'
            else if Ascii.eqb d "'" then after +:+ expand t'
            else
              match digit d with
              | Some n1 =>
                  let one :=
                    match group caps n1 with
                    | Some g => g +:+ expand t'
                    | None => String c (expand t)
                    end in
                  match t' with
                  | String e t'' =>
                      match digit e with
                      | Some n2 =>
                          match group caps (10 * n1 + n2) with
                          | Some g => g +:+ expand t''
                          | None => one
                          end
                      | None => one
                      end
                  | EmptyString => one
                  end
              | None => String c (expand t)
              end
        end
      else String c (expand t)
  end.
End Expand.

(** [s.replace(re, template)] for the expression that spells [pat]. *)
Definition replace (pat template s : string) : string :=
  match search pat s with
  | Some (b, m, a) => b +:+ expand (captures m) m b a template +:+ a
  | None => s
  end.

(** The result of a search in the rest of a subject, seen from before
    the prefix [pre] that the search passed over. *)
Definition shift (pre : string) (r : option (string * string * string))
    : option (string * string * string) :=
  match r with
  | Some (b, m, a) => Some (pre +:+ b, m, a)
  | None => None
  end.

(** The pattern starts with a dollar sign. *)
Definition opens (pat : string) : bool :=
  match pat with
  | String c _ => Ascii.eqb c "$"
  | EmptyString => false
  end.


End JSReplace.

(** ** [encodeURIComponent] *)

Module URI.

(** uriUnescaped: the letters, the digits and [- _ . ! ~ * ' ( )]. *)
Definition unreserved (c : ascii) : bool :=
  let n := nat_of_ascii c in
  (((65 <=? n) && (n <=? 90)) || ((97 <=? n) && (n <=? 122))
   || ((48 <=? n) && (n <=? 57))
   || Str.mem c "-_.!~*'()")%nat%bool.

Definition hex_digit (n : nat) : ascii :=
  if (n <? 10)%nat then ascii_of_nat (48 + n) else ascii_of_nat (55 + n).

(** [%XX] for one octet. *)
Definition escape_octet (n : nat) (rest : string) : string :=
  String "%" (String (hex_digit (n / 16)) (String (hex_digit (n mod 16)) rest)).

(** A code unit below 128 is one octet of UTF-8, one from 128 to 255
    is two. *)
Definition encode_unit (c : ascii) (rest : string) : string :=
  let n := nat_of_ascii c in
  if unreserved c then String c rest
  else if (n <? 128)%nat then escape_octet n rest
  else escape_octet (192 + n / 64) (escape_octet (128 + n mod 64) rest).

Fixpoint encode (s : string) : string :=
  match s with
  | EmptyString => EmptyString
  | String c r => encode_unit c (encode r)
  end.

(** ToString of ECMAScript on the arguments the plugin passes: strings
    and the byte length of the file. *)
Definition ToString (x : any) : string :=
  match x with
  | undefined => "undefined"
  | null => "null"
  | JBool true => "true"
  | JBool false => "false"
  | JNum n => pretty n
  | JStr s => s
  | JBuffer bytes => bytes
  | JObject _ => "[object Object]"
  end.

Definition encodeURIComponent (x : any) : string := encode (ToString x).

End URI.

(** ** The HTTP plugin *)

Module http.

(** What [deployFile] has at hand once the file is read: the effective
    target fields, what [Path.basename], [detectContentType] and the
    file status gave, and the three dates as [format] prints them. *)
Record Upload : Type := {
  file : string;
  relativePath : string;
  url : string;
  method : string;
  headers : list (string * any);
  contentType : string;
  basename : string;
  data_length : Z;
  now : string;
  lastWriteTime : string;
  creationTime : string;
  submitContentLength : any;
  submitContentType : any;
  submitDate : any
}.

(** The result of [URL.parse]. *)
Record Url : Type := {
  url_protocol : any;
  url_hostname : any;
  url_port : any;
  url_path : any
}.

(** The options handed to [HTTP.request]. *)
Record RequestOptions : Type := {
  req_headers : list (string * string);
  req_host : string;
  req_method : string;
  req_path : any;
  req_port : any;
  req_protocol : string
}.

(** How the callback of [FS.readFile] ends: [completed(err)] was called,
    or the request was started with these options, [href] being the text
    that [URL.parse] was given. *)
Inductive step : Type :=
| Completed (err : option exn)
| Requested (options : RequestOptions) (href : string).

Section Plugin.
Context `{Helpers}.
Variable URL_parse : string -> outcome Url.
Variable parseInt : string -> any.

Definition parsePlaceHolders (u : Upload) (str : any)
    (transformer : option (any -> string)) : string :=
  let transformer :=
    match transformer with
    | Some t => t
    | None => fun s => toStringSafe s
    end in
  let str := toStringSafe str in
  let str := JSReplace.replace "${vsdeploy-date}" (transformer (JStr (now u))) str in
  let str := JSReplace.replace "${vsdeploy-file}" (transformer (JStr (relativePath u))) str in
  let str := JSReplace.replace "${vsdeploy-file-mime}" (transformer (JStr (contentType u))) str in
  let str := JSReplace.replace "${vsdeploy-file-name}" (transformer (JStr (basename u))) str in
  let str := JSReplace.replace "${vsdeploy-file-size}" (transformer (JNum (data_length u))) str in
  let str := JSReplace.replace "${vsdeploy-file-time-changed}" (transformer (JStr (lastWriteTime u))) str in
  let str := JSReplace.replace "${vsdeploy-file-time-created}" (transformer (JStr (creationTime u))) str in
  toStringSafe (JStr str).


(** [headers[p] = x]: a new key goes last, an old one keeps its place.
    The list is in the order of the writes; [for (let p in headers)]
    lists keys that are array indices first, which the model leaves
    out. *)
Fixpoint set_header (hs : list (string * any)) (p : string) (x : any)
    : list (string * any) :=
  match hs with
  | [] => [(p, x)]
  | (q, y) :: hs' =>
      if String.eqb q p then (q, x) :: hs' else (q, y) :: set_header hs' p x
  end.

(** The URL as it is handed to [URL.parse]. *)
Definition substituted_url (u : Upload) : string :=
  parsePlaceHolders u (JStr (url u)) (Some (fun str => URI.encodeURIComponent str)).

Definition submitted_headers (u : Upload) : list (string * string) :=
  let headers := headers u in
  let headers :=
    if toBooleanSafe (submitContentLength u) (Some true)
    then set_header headers "Content-length"
           (JStr (toStringSafe_def (JNum (data_length u)) "0"))
    else headers in
  let headers :=
    if toBooleanSafe (submitContentType u) (Some true)
    then set_header headers "Content-type" (JStr (contentType u))
    else headers in
  let headers :=
    if toBooleanSafe (submitDate u) (Some true)
    then set_header headers "Date" (JStr (now u))
    else headers in
  map (fun '(p, x) => (p, parsePlaceHolders u x None)) headers.

(** The body of the callback of [FS.readFile] when the file was read,
    up to the call of [HTTP.request]; what [URL.parse] throws is caught
    and handed to [completed]. *)
Definition start_request (u : Upload) : step :=
  let href := substituted_url u in
  match URL_parse href with
  | Throw e => Completed (Some e)
  | Ret targetUrl =>
  let headersToSubmit := submitted_headers u in
  let protocol := Str.trim (Str.toLowerCase (toStringSafe (url_protocol targetUrl))) in
  let protocol := if String.eqb protocol "" then "http:" else protocol in
  if negb (String.eqb protocol "http:" || String.eqb protocol "https:") then
    Completed (Some (Error ("Protocol " +:+ protocol +:+ " is not supported!")))
  else
    let hostName := Str.trim (Str.toLowerCase (toStringSafe (url_hostname targetUrl))) in
    let hostName := if String.eqb hostName "" then "localhost" else hostName in
    let port := Str.trim (toStringSafe (url_port targetUrl)) in
    let port :=
      if String.eqb port "" then
        if String.eqb "http:" protocol then "80" else "443"
      else port in
    Requested
      {| req_headers := headersToSubmit; req_host := hostName;
         req_method := method u; req_path := url_path targetUrl;
         req_port := parseInt port; req_protocol := protocol |}
      href
  end.

End Plugin.

(** The callback of [HTTP.request]: the argument of the one call of
    [completed] it makes for a response. *)
Definition status_message (kind : string) (statusCode : Z)
    (statusMessage : string) : string :=
  kind +:+ ": [" +:+ pretty statusCode +:+ "] '" +:+ statusMessage +:+ "'".

Definition on_response (statusCode : Z) (statusMessage : string) : option exn :=
  if negb ((199 <? statusCode) && (statusCode <? 300)) then
    Some (Error (status_message "No success" statusCode statusMessage))
  else if (399 <? statusCode) && (statusCode <? 500) then
    Some (Error (status_message "Client error" statusCode statusMessage))
  else if (499 <? statusCode) && (statusCode <? 600) then
    Some (Error (status_message "Server error" statusCode statusMessage))
  else if 599 <? statusCode then
    Some (Error (status_message "Error" statusCode statusMessage))
  else None.

End http.

(** ** An instance of the helpers

    Used where a statement is evaluated on concrete Values. *)

Module Spec_helpers.

(** Modelled from the spec: [helpers.ts] is missing.  The input of
    [replaceWithValues] is "stringified first", where [null] and
    [undefined] count as the empty string. *)
Definition toStringSafe (x : any) : string :=
  match x with
  | undefined | null => ""
  | _ => URI.ToString x
  end.

(** Modelled from the spec: [helpers.ts] is missing.  The call with a
    default value gives the default for an empty result. *)
Definition toStringSafe_def (x : any) (defValue : string) : string :=
  let str := toStringSafe x in
  if String.eqb str "" then defValue else str.

(** Modelled from the spec: [helpers.ts] is missing.  Matching is
    "case/whitespace-normalized on the name". *)
Definition normalizeString (x : any) : string :=
  Str.trim (Str.toLowerCase (toStringSafe x)).

(** Modelled from the spec: [helpers.ts] is missing.  A string is empty
    when nothing but white space is in it. *)
Definition isEmptyString (x : any) : bool :=
  String.eqb (Str.trim (toStringSafe x)) "".

(** Modelled from the spec: [helpers.ts] is missing.  "[null] and
    [undefined] pass through unchanged". *)
Definition isNullOrUndefined (x : any) : bool :=
  match x with
  | undefined | null => true
  | _ => false
  end.

(** Modelled from the spec: [helpers.ts] is missing.  A toggle that is
    not set takes its default. *)
Definition toBooleanSafe (x : any) (defValue : option bool) : bool :=
  match x with
  | undefined | null => default false defValue
  | _ => truthy x
  end.

(** Modelled from the spec: [helpers.ts] is missing.  Values of the
    model have no identity, so a clone is the value. *)
Definition cloneObject (x : any) : any := x.

Definition helpers : Helpers :=
  Build_Helpers toStringSafe toStringSafe_def normalizeString isEmptyString
    isNullOrUndefined toBooleanSafe cloneObject
    (fun _ => eq_refl) (fun _ => eq_refl) eq_refl eq_refl.

End Spec_helpers.

(** ** A platform and some Values

    Used where a statement is evaluated on concrete Values. *)

Module Example.

(** A script whose [getValue] returns what it reads from [args.state]. *)
Definition reads_state : ScriptValueModule :=
  {| getValue := Function (fun args => x ← args_state_get args; mret x) |}.

(** A script whose [getValue] stores its name in [args.state]. *)
Definition writes_state : ScriptValueModule :=
  {| getValue := Function (fun args =>
       _ ← args_state_set args (args_name args); mret (JStr "stored")) |}.

Definition is_absolute (s : string) : bool :=
  match s with
  | String c _ => Ascii.eqb c "/"
  | EmptyString => false
  end.

Definition platform : Platform :=
  {| process_env := [("HOME", "/home/u"); (" EDITOR ", "vi"); ("Path", "/usr/bin")];
     process_cwd := "/ws";
     OS_homedir := "/home/u";
     workspace_rootPath := JStr "/ws";
     Path_isAbsolute := fun x =>
       match x with
       | JStr s => Ret (is_absolute s)
       | _ => Throw (TypeError "Path must be a string")
       end;
     Path_join := fun a b =>
       match a, b with
       | JStr x, JStr y => Ret (JStr (x +:+ "/" +:+ y))
       | _, _ => Throw (TypeError "Path must be a string")
       end;
     Path_resolve := fun x =>
       match x with
       | JStr s => Ret s
       | _ => Throw (TypeError "Path must be a string")
       end;
     FS_existsSync := fun p =>
       String.eqb p "/ws/reads.js" || String.eqb p "/ws/writes.js"
       || String.eqb p "/ws/plain.js" || String.eqb p "/ws/null.js";
     FS_readFileSync := fun p =>
       Throw (Error "ENOENT: no such file or directory");
     Buffer_toString := fun bytes enc => Ret bytes;
     loadModule := fun p =>
       if String.eqb p "/ws/reads.js" then Ret (Some reads_state)
       else if String.eqb p "/ws/writes.js" then Ret (Some writes_state)
       else if String.eqb p "/ws/plain.js" then Ret (Some {| getValue := NotFunction undefined |})
       else Ret None;
     require := fun _ => mret undefined;
     EVENTS_emit := fun _ => mret (JBool false);
     eval := fun code scope =>
       if String.eqb code "process.cwd()" then mret (JStr (scope_cwd scope))
       else throw (Error "SyntaxError") |}.

(** A definition with the given [name] and [type], nothing else set. *)
Definition definition (name type : any) : deploy_contracts.ValueWithName :=
  {| deploy_contracts.name := name; deploy_contracts.type := type;
     deploy_contracts.value := undefined; deploy_contracts.code := undefined;
     deploy_contracts.alias := undefined; deploy_contracts.file := undefined;
     deploy_contracts.asBinary := undefined;
     deploy_contracts.encoding := undefined;
     deploy_contracts.usePlaceholders := undefined;
     deploy_contracts.script := undefined;
     deploy_contracts.options := undefined |}.

Definition static_item (name : string) (value : any)
    : deploy_contracts.ValueWithName :=
  let i := definition (JStr name) (JStr "static") in
  {| deploy_contracts.name := deploy_contracts.name i;
     deploy_contracts.type := deploy_contracts.type i;
     deploy_contracts.value := value;
     deploy_contracts.code := undefined; deploy_contracts.alias := undefined;
     deploy_contracts.file := undefined; deploy_contracts.asBinary := undefined;
     deploy_contracts.encoding := undefined;
     deploy_contracts.usePlaceholders := undefined;
     deploy_contracts.script := undefined;
     deploy_contracts.options := undefined |}.

Definition file_item (name file : string) : deploy_contracts.ValueWithName :=
  {| deploy_contracts.name := JStr name; deploy_contracts.type := JStr "file";
     deploy_contracts.value := undefined;
     deploy_contracts.code := undefined; deploy_contracts.alias := undefined;
     deploy_contracts.file := JStr file; deploy_contracts.asBinary := undefined;
     deploy_contracts.encoding := undefined;
     deploy_contracts.usePlaceholders := undefined;
     deploy_contracts.script := undefined;
     deploy_contracts.options := undefined |}.

Definition env_item (name : string) (alias : any)
    : deploy_contracts.ValueWithName :=
  {| deploy_contracts.name := JStr name; deploy_contracts.type := JStr "env";
     deploy_contracts.value := undefined;
     deploy_contracts.code := undefined; deploy_contracts.alias := alias;
     deploy_contracts.file := undefined; deploy_contracts.asBinary := undefined;
     deploy_contracts.encoding := undefined;
     deploy_contracts.usePlaceholders := undefined;
     deploy_contracts.script := undefined;
     deploy_contracts.options := undefined |}.

Definition script_item (name : string) (script : any)
    : deploy_contracts.ValueWithName :=
  {| deploy_contracts.name := JStr name; deploy_contracts.type := JStr "script";
     deploy_contracts.value := undefined;
     deploy_contracts.code := undefined; deploy_contracts.alias := undefined;
     deploy_contracts.file := undefined; deploy_contracts.asBinary := undefined;
     deploy_contracts.encoding := undefined;
     deploy_contracts.usePlaceholders := undefined;
     deploy_contracts.script := script;
     deploy_contracts.options := undefined |}.

(** [new StaticValue({ name, type: "static", value })]. *)
Definition static (name : string) (value : any) : ValueBase :=
  new StaticValue (Some (static_item name value)) None.

(** A File Value whose file cannot be read: its accessor throws. *)
Definition unreadable (name : string) : ValueBase :=
  new FileValue (Some (file_item name "missing.txt")) None.

(** The getters on the example platform, with no array in the heap. *)
Definition value_ : ValueBase -> M any :=
  value (H := Spec_helpers.helpers) platform ∅ 3.

(** Four entries: an unknown type tag, a falsy entry, a static and an
    environment definition. *)
Definition four_entries : list (option deploy_contracts.ValueWithName) :=
  [ Some (definition (JStr "a") (JStr "ftp")); None;
    Some (static_item "x" (JStr "1")); Some (env_item "HOME" undefined) ].

(** An upload of [/ws/out/my file.txt], twelve bytes long. *)
Definition upload : http.Upload :=
  {| http.file := "/ws/out/my file.txt";
     http.relativePath := "/out/my file.txt";
     http.url := "http://host/up/${VSDeploy-File-Name}?size=${vsdeploy-file-size}";
     http.method := "PUT";
     http.headers := [("X-Name", JStr "name=${vsdeploy-file-name};")];
     http.contentType := "text/plain";
     http.basename := "my file.txt";
     http.data_length := 12;
     http.now := "Tue, 03 Nov 2026 10:00:00 GMT";
     http.lastWriteTime := "Mon, 02 Nov 2026 09:00:00 GMT";
     http.creationTime := "Sun, 01 Nov 2026 08:00:00 GMT";
     http.submitContentLength := JBool false;
     http.submitContentType := JBool false;
     http.submitDate := JBool false |}.

(** A stand-in for [URL.parse] that knows the host of [upload]. *)
Definition URL_parse (href : string) : outcome http.Url :=
  Ret {| http.url_protocol := JStr "http:"; http.url_hostname := JStr "host";
         http.url_port := null;
         http.url_path := JStr (Str.drop 11 href) |}.

Definition parseInt (port : string) : any :=
  if String.eqb port "80" then JNum 80
  else if String.eqb port "443" then JNum 443 else undefined.

End Example.

(** ** [getValues]

    The function is a method of the deployer: [this] gives the name of
    the host and the configuration.  [filterPlatformItems] of
    [helpers.ts] is a parameter. *)

(** An entry of [config.values]: a value definition and its [isFor], as
    the array that [asArray] makes of it. *)
Record ConfiguredValue : Type := {
  definition : deploy_contracts.ValueWithName;
  isFor : list any
}.

(** What [getValues] reads of [this]. *)
Record Deployer : Type := {
  deployer_name : any;
  config_values : list (option ConfiguredValue);
  config : deploy_contracts.DeployConfiguration
}.

(** A code definition as [getValues] writes the three built-in ones. *)
Definition code_item (name code : string) : deploy_contracts.ValueWithName :=
  {| deploy_contracts.name := JStr name; deploy_contracts.type := JStr "code";
     deploy_contracts.value := undefined; deploy_contracts.code := JStr code;
     deploy_contracts.alias := undefined; deploy_contracts.file := undefined;
     deploy_contracts.asBinary := undefined;
     deploy_contracts.encoding := undefined;
     deploy_contracts.usePlaceholders := undefined;
     deploy_contracts.script := undefined;
     deploy_contracts.options := undefined |}.

Definition builtin_cwd : ValueBase :=
  new CodeValue (Some (code_item "cwd" "process.cwd()")) None.
Definition builtin_homeDir : ValueBase :=
  new CodeValue (Some (code_item "homeDir" "require('os').homedir()")) None.
Definition builtin_workspaceRoot : ValueBase :=
  new CodeValue (Some (code_item "workspaceRoot" "require('vscode').workspace.rootPath")) None.

Section GetValues.
Context `{Helpers}.
Variable filterPlatformItems : list ConfiguredValue -> list ConfiguredValue.

(** [asArray(v.isFor).map(x => normalizeString(x)).filter(x => '' !== x)]. *)
Definition validHosts (v : ConfiguredValue) : list string :=
  filter (fun x => "" ≠ x) (map normalizeString (isFor v)).

(** [validHosts.indexOf(myName) > -1]: [indexOf] compares with [===]. *)
Definition indexOf_found (myName : any) (hosts : list string) : bool :=
  existsb (fun x => negb (strict_neq (JStr x) myName)) hosts.

(** The callback of the [isFor] filter. *)
Definition is_for (myName : any) (v : ConfiguredValue) : bool :=
  let validHosts := validHosts v in
  if (length validHosts <? 1)%nat then true
  else indexOf_found myName validHosts.

(** The definitions that are left after the three filters. *)
Definition applicable (me : Deployer) : list ConfiguredValue :=
  let myName := deployer_name me in
  let values := omap (fun x => x) (config_values me) in
  let values := filter (fun v => Is_true (is_for myName v)) values in
  filterPlatformItems values.

(** The result is the array of [toValueObjects], to which the three
    built-in Values are pushed. *)
Definition getValues (me : Deployer) (h : Heap) : loc * Heap :=
  let values := applicable me in
  let '(objs, h) :=
    toValueObjects (map (fun v => Some (definition v)) values)
      (Some (config me)) h in
  let h := push objs builtin_cwd h in
  let h := push objs builtin_homeDir h in
  let h := push objs builtin_workspaceRoot h in
  (objs, h).

(** The heap after a call and the array the call returns. *)
Definition getValues_heap (me : Deployer) (h : Heap) : Heap :=
  (getValues me h).2.

Definition getValues_array (me : Deployer) (h : Heap) : list ValueBase :=
  default [] (getValues_heap me h !! (getValues me h).1).

(** The Values made of the configuration, before the built-in ones. *)
Definition configured (me : Deployer) (h : Heap) : list ValueBase :=
  toValueObjects_array (map (fun v => Some (definition v)) (applicable me))
    (Some (config me)) h.

End GetValues.

(** ** Counting the accessor calls of a pass *)

Section Matching.
Context `{Helpers}.

(** The matches of a subject whose normalized name is [vn]. *)
Fixpoint matching (vn : string) (ps : list Placeholder.piece) : nat :=
  match ps with
  | [] => 0
  | Placeholder.Lit _ :: ps' => matching vn ps'
  | Placeholder.Tok n :: ps' =>
      (if String.eqb (normalizeString (JStr n)) vn then 1 else 0)%nat
      + matching vn ps'
  end.

End Matching.

(** The getter that [define_others] stored under the key [p], if any. *)
Fixpoint getter_of {A} (o : list (string * A)) (p : string) : option A :=
  match o with
  | [] => None
  | (q, g) :: o' => if String.eqb q p then Some g else getter_of o' p
  end.

(** The subject in which the matches of normalized name [vn] are
    replaced by [text] and the other ones by themselves. *)
Fixpoint substitute `{Helpers} (vn text : string)
    (ps : list Placeholder.piece) : string :=
  match ps with
  | [] => EmptyString
  | Placeholder.Lit c :: ps' => String c (substitute vn text ps')
  | Placeholder.Tok n :: ps' =>
      (if String.eqb (normalizeString (JStr n)) vn then text
       else Placeholder.token n)
      +:+ substitute vn text ps'
  end.

(** The [forEach] of [define_others] from a map that has been filled
    already. *)
Definition define_from `{Helpers} (value : ValueBase -> M any)
    (o : list (string * M any)) (ovs : list ValueBase)
    : list (string * M any) :=
  fold_left
    (fun others ov =>
       let propertyName := toStringSafe (name ov) in
       if String.eqb "" propertyName then others
       else defineProperty others propertyName (value ov))
    ovs o.

(** The file that [FileValue.value] reads is [p]: the configured path
    after the substitution, resolved. *)
Definition reads_file `{Helpers} (P : Platform) (h : Heap)
    (value : ValueBase -> M any) (me : ValueBase) (st st1 : State)
    (p : string) : Prop :=
  exists file,
    replaceWithValues value (otherValues h me)
      (JStr (toStringSafe (deploy_contracts.file (item me)))) st
    = (Ret file, st1)
    /\ resolve_path P file = Ret p.

(** ** [deployFile] from its first line on

    [deployFile] hands callbacks to [FS.lstat], [FS.readFile] and
    [HTTP.request].  What those answer is given by a [World]; a run is
    the list of what [deployFile] and its callbacks do, in the order in
    which they do it.  [opts.onCompleted] is an observer: every call of
    [completed] is an entry of the run. *)
Module HttpPlugin.

(** The target as it is configured; [target_headers] is [None] for a
    falsy [headers]. *)
Record DeployTargetHttp : Type := {
  target_headers : option (list (string * any));
  target_method : any;
  target_password : any;
  target_submitContentLength : any;
  target_submitContentType : any;
  target_submitDate : any;
  target_submitFileHeader : any;
  target_user : any;
  target_url : any
}.

(** The two times of [FS.Stats] that are used, as [format] prints them. *)
Record Stats : Type := {
  birthtime : string;
  mtime : string
}.

(** [if (err)] on what an [error] event carries. *)
Definition thrown_truthy (err : exn) : bool :=
  match err with
  | Thrown v => truthy v
  | _ => true
  end.

(** What the request emits: the response, or an error. *)
Inductive NetEvent : Type :=
| Response (statusCode : Z) (statusMessage : string)
| ErrorEvent (err : exn).

(** The answers of the platform and of the helpers during one call.
    [toRelativePath] is [None] for [false]; [lstat] and [readFile] are
    [Throw err] when their callback gets a truthy [err], and [readFile]
    gives the length of the data; [onBeforeDeploy] is [None] when [opts]
    has no such callback, and says otherwise whether the callback
    throws. *)
Record World : Type := {
  toRelativePath : string -> option string;
  Path_basename : string -> string;
  MIME_lookup : string -> outcome any;
  toUpperCase : string -> string;
  base64 : string -> string;
  moment_now : string;
  onBeforeDeploy : option (outcome ());
  lstat : string -> outcome Stats;
  readFile : string -> outcome Z;
  URL_parse : string -> outcome http.Url;
  parseInt : string -> any;
  HTTP_request : http.RequestOptions -> outcome ();
  req_write : outcome ();
  req_end : outcome ();
  network : list NetEvent
}.

(** What a run consists of. *)
Inductive Event : Type :=
| BeforeDeploy
| Lstat (file : string)
| ReadFile (file : string)
| Request (options : http.RequestOptions)
| Completed (err : option exn).

Section Plugin.
Context `{Helpers}.
Variable w : World.

(** [detectContentType]; the error of the lookup is logged and dropped. *)
Definition detectContentType (file : string) : string :=
  let mime :=
    match MIME_lookup w file with
    | Ret m => m
    | Throw _ => undefined
    end in
  let mime := Str.trim (Str.toLowerCase (toStringSafe mime)) in
  if String.eqb mime "" then "application/octet-stream" else mime.

Definition effective_url (target : DeployTargetHttp) : string :=
  let url := Str.trim (toStringSafe (target_url target)) in
  if String.eqb url "" then "http://localhost" else url.

Definition effective_method (target : DeployTargetHttp) : string :=
  let method := Str.trim (toUpperCase w (toStringSafe (target_method target))) in
  if String.eqb method "" then "PUT" else method.

(** The header map after the [Authorization] and the [X-vsdeploy-file]
    headers are set: [target.headers] itself when it is truthy, as it is
    at the end of these writes. *)
Definition effective_headers (target : DeployTargetHttp)
    (relativePath : string) : list (string * any) :=
  let headers := default [] (target_headers target) in
  let user := toStringSafe (target_user target) in
  let headers :=
    if negb (String.eqb user "") then
      let pwd := toStringSafe (target_password target) in
      http.set_header headers "Authorization"
        (JStr ("Basic " +:+ base64 w (user +:+ ":" +:+ pwd)))
    else headers in
  let submitFileHeader :=
    toBooleanSafe (target_submitFileHeader target) (Some false) in
  if submitFileHeader
  then http.set_header headers "X-vsdeploy-file" (JStr relativePath)
  else headers.

(** What the callback of [FS.readFile] has at hand. *)
Definition upload_of (file relativePath : string) (target : DeployTargetHttp)
    (stats : Stats) (data_length : Z) : http.Upload :=
  {| http.file := file;
     http.relativePath := relativePath;
     http.url := effective_url target;
     http.method := effective_method target;
     http.headers := effective_headers target relativePath;
     http.contentType := detectContentType file;
     http.basename := Path_basename w file;
     http.data_length := data_length;
     http.now := moment_now w;
     http.lastWriteTime := mtime stats;
     http.creationTime := birthtime stats;
     http.submitContentLength := target_submitContentLength target;
     http.submitContentType := target_submitContentType target;
     http.submitDate := target_submitDate target |}.

(** The events of the request: the callback of [HTTP.request] runs for
    the first response, the listener set with [once] for the first
    error. *)
Fixpoint deliver (response error : bool) (events : list NetEvent)
    : list Event :=
  match events with
  | [] => []
  | Response statusCode statusMessage :: rest =>
      if response
      then Completed (http.on_response statusCode statusMessage)
           :: deliver false error rest
      else deliver response error rest
  | ErrorEvent err :: rest =>
      if error
      then (if thrown_truthy err then [Completed (Some err)] else [])
           ++ deliver response false rest
      else deliver response error rest
  end.

(** What [req.write] and [req.end] add to a run. *)
Definition written : list Event :=
  match req_write w with
  | Throw e => [Completed (Some e)]
  | Ret _ =>
      match req_end w with
      | Throw e => [Completed (Some e)]
      | Ret _ => []
      end
  end.

(** The callback of [FS.readFile] when the data was read: its [try]
    block, then what the request emits. *)
Definition send (u : http.Upload) : list Event :=
  match http.start_request (URL_parse w) (parseInt w) u with
  | http.Completed err => [Completed err]
  | http.Requested options _ =>
      match HTTP_request w options with
      | Throw e => [Completed (Some e)]
      | Ret _ =>
          Request options :: written ++ deliver true true (network w)
      end
  end.

Definition deployFile (file : string) (target : DeployTargetHttp)
    : list Event :=
  match toRelativePath w file with
  | None =>
      [Completed (Some (Error ("Cannot get relative path for '" +:+ file +:+ "'!")))]
  | Some relativePath =>
      match onBeforeDeploy w with
      | Some (Throw e) => [BeforeDeploy; Completed (Some e)]
      | before =>
          match before with Some _ => [BeforeDeploy] | None => [] end
          ++ Lstat file
          :: match lstat w file with
             | Throw err => [Completed (Some err)]
             | Ret stats =>
                 ReadFile file
                 :: match readFile w file with
                    | Throw err => [Completed (Some err)]
                    | Ret data_length =>
                        send (upload_of file relativePath target stats data_length)
                    end
             end
      end
  end.

End Plugin.

(** The arguments of the calls of [completed] in a run. *)
Definition completions (run : list Event) : list (option exn) :=
  omap (fun e => match e with Completed err => Some err | _ => None end) run.

(** The requests that were started in a run. *)
Definition requests (run : list Event) : list http.RequestOptions :=
  omap (fun e => match e with Request o => Some o | _ => None end) run.

End HttpPlugin.

(** ** A deployer, a file and a server

    Used where a statement on [getValues], on [FileValue] or on
    [deployFile] is evaluated. *)

Module Sample.

(** An accessor that leaves a trace: it logs a call and gives the text
    [v]. *)
Definition counting (v : ValueBase) : M any :=
  _ ← log_getValue "tick"; mret (JStr "v").

(** The deployer of the host [host-a]: a definition for every host, a
    falsy entry, a definition called [cwd] for the host [ Host-A ] and
    one for the host [host-b]. *)
Definition deployer : Deployer :=
  {| deployer_name := JStr "host-a";
     config_values :=
       [ Some {| definition := Example.static_item "x" (JStr "1");
                 isFor := [] |};
         None;
         Some {| definition := Example.static_item "cwd" (JStr "mine");
                 isFor := [JStr " Host-A "] |};
         Some {| definition := Example.env_item "HOME" undefined;
                 isFor := [JStr "host-b"] |} ];
     config := {| deploy_contracts.globals := undefined |} |}.

(** The platform of [Example], on which the file [/ws/a.txt] holds
    [hello]. *)
Definition platform : Platform :=
  {| process_env := process_env Example.platform;
     process_cwd := process_cwd Example.platform;
     OS_homedir := OS_homedir Example.platform;
     workspace_rootPath := workspace_rootPath Example.platform;
     Path_isAbsolute := Path_isAbsolute Example.platform;
     Path_join := Path_join Example.platform;
     Path_resolve := Path_resolve Example.platform;
     FS_existsSync := FS_existsSync Example.platform;
     FS_readFileSync := fun p =>
       if String.eqb p "/ws/a.txt" then Ret "hello"
       else Throw (Error "ENOENT: no such file or directory");
     Buffer_toString := Buffer_toString Example.platform;
     loadModule := loadModule Example.platform;
     require := require Example.platform;
     EVENTS_emit := EVENTS_emit Example.platform;
     eval := eval Example.platform |}.

Definition text_file : ValueBase :=
  new FileValue (Some (Example.file_item "f" "a.txt")) None.

(** A target with a user, a configured [Authorization] header and no
    toggle set. *)
Definition target : HttpPlugin.DeployTargetHttp :=
  {| HttpPlugin.target_headers :=
       Some [("Authorization", JStr "Bearer t");
             ("X-Name", JStr "name=${vsdeploy-file-name};")];
     HttpPlugin.target_method := JStr "post";
     HttpPlugin.target_password := JStr "pw";
     HttpPlugin.target_submitContentLength := undefined;
     HttpPlugin.target_submitContentType := undefined;
     HttpPlugin.target_submitDate := undefined;
     HttpPlugin.target_submitFileHeader := undefined;
     HttpPlugin.target_user := JStr "u";
     HttpPlugin.target_url := JStr "http://host/up/${vsdeploy-file-name}" |}.

Definition stats : HttpPlugin.Stats :=
  {| HttpPlugin.birthtime := "Sun, 01 Nov 2026 08:00:00 GMT";
     HttpPlugin.mtime := "Mon, 02 Nov 2026 09:00:00 GMT" |}.

(** One call for the file [/ws/out/my file.txt] and [target]: what
    [lstat] answers and what the request emits are left open;
    [toUpperCase] and [base64] are given by their results on the method
    and on the credentials of [target]. *)
Definition world (lstat : outcome HttpPlugin.Stats)
    (network : list HttpPlugin.NetEvent) : HttpPlugin.World :=
  {| HttpPlugin.toRelativePath := fun file => Some (Str.drop 3 file);
     HttpPlugin.Path_basename := fun _ => "my file.txt";
     HttpPlugin.MIME_lookup := fun _ => Ret (JStr " Text/Plain ");
     HttpPlugin.toUpperCase := fun _ => "POST";
     HttpPlugin.base64 := fun _ => "dTpwdw==";
     HttpPlugin.moment_now := "Tue, 03 Nov 2026 10:00:00 GMT";
     HttpPlugin.onBeforeDeploy := Some (Ret ());
     HttpPlugin.lstat := fun _ => lstat;
     HttpPlugin.readFile := fun _ => Ret 12;
     HttpPlugin.URL_parse := Example.URL_parse;
     HttpPlugin.parseInt := Example.parseInt;
     HttpPlugin.HTTP_request := fun _ => Ret ();
     HttpPlugin.req_write := Ret ();
     HttpPlugin.req_end := Ret ();
     HttpPlugin.network := network |}.

Definition file : string := "/ws/out/my file.txt".

(** A [URL.parse] that cannot decode the user of [http://%@host/]. *)
Definition URL_parse (href : string) : outcome http.Url :=
  if String.eqb href "http://%@host/"
  then Throw (Thrown (JObject [("name", JStr "URIError");
                               ("message", JStr "URI malformed")]))
  else Example.URL_parse href.

(** The world of a call in which [URL.parse] is that one. *)
Definition failing_world : HttpPlugin.World :=
  let w := world (Ret stats) [] in
  {| HttpPlugin.toRelativePath := HttpPlugin.toRelativePath w;
     HttpPlugin.Path_basename := HttpPlugin.Path_basename w;
     HttpPlugin.MIME_lookup := HttpPlugin.MIME_lookup w;
     HttpPlugin.toUpperCase := HttpPlugin.toUpperCase w;
     HttpPlugin.base64 := HttpPlugin.base64 w;
     HttpPlugin.moment_now := HttpPlugin.moment_now w;
     HttpPlugin.onBeforeDeploy := HttpPlugin.onBeforeDeploy w;
     HttpPlugin.lstat := HttpPlugin.lstat w;
     HttpPlugin.readFile := HttpPlugin.readFile w;
     HttpPlugin.URL_parse := URL_parse;
     HttpPlugin.parseInt := HttpPlugin.parseInt w;
     HttpPlugin.HTTP_request := HttpPlugin.HTTP_request w;
     HttpPlugin.req_write := HttpPlugin.req_write w;
     HttpPlugin.req_end := HttpPlugin.req_end w;
     HttpPlugin.network := HttpPlugin.network w |}.

(** The platform of [Example], on which the module [/ws/five.js] has the
    number 5 as its [getValue]. *)
Definition script_platform : Platform :=
  {| process_env := process_env Example.platform;
     process_cwd := process_cwd Example.platform;
     OS_homedir := OS_homedir Example.platform;
     workspace_rootPath := workspace_rootPath Example.platform;
     Path_isAbsolute := Path_isAbsolute Example.platform;
     Path_join := Path_join Example.platform;
     Path_resolve := Path_resolve Example.platform;
     FS_existsSync := fun p =>
       String.eqb p "/ws/five.js" || FS_existsSync Example.platform p;
     FS_readFileSync := FS_readFileSync Example.platform;
     Buffer_toString := Buffer_toString Example.platform;
     loadModule := fun p =>
       if String.eqb p "/ws/five.js"
       then Ret (Some {| getValue := NotFunction (JNum 5) |})
       else loadModule Example.platform p;
     require := require Example.platform;
     EVENTS_emit := EVENTS_emit Example.platform;
     eval := eval Example.platform |}.

(** What the callback of [FS.readFile] has at hand in that call. *)
Definition upload : http.Upload :=
  HttpPlugin.upload_of (H := Spec_helpers.helpers) (world (Ret stats) [])
    file "/out/my file.txt" target stats 12.

(** The same upload to the URL [http://%@host/]. *)
Definition undecodable : http.Upload :=
  {| http.file := http.file upload;
     http.relativePath := http.relativePath upload;
     http.url := "http://%@host/";
     http.method := http.method upload;
     http.headers := http.headers upload;
     http.contentType := http.contentType upload;
     http.basename := http.basename upload;
     http.data_length := http.data_length upload;
     http.now := http.now upload;
     http.lastWriteTime := http.lastWriteTime upload;
     http.creationTime := http.creationTime upload;
     http.submitContentLength := http.submitContentLength upload;
     http.submitContentType := http.submitContentType upload;
     http.submitDate := http.submitDate upload |}.

End Sample.

(** * Properties *)

#[local] Arguments String.append !_ _ / : simpl nomatch.

(** ** Strings *)

Module StrFacts.

Lemma append_nil_r (s : string) : s +:+ "" = s.
Proof. induction s as [|c s IH]; simpl; [done | by rewrite IH]. Qed.

Lemma append_assoc (a b c : string) : (a +:+ b) +:+ c = a +:+ (b +:+ c).
Proof. induction a as [|x a IH]; simpl; [done | by rewrite IH]. Qed.

Lemma drop_length_append (a b : string) : Str.drop (String.length a) (a +:+ b) = b.
Proof. induction a as [|x a IH]; simpl; done. Qed.

Lemma mem_append (c : ascii) (a b : string) :
  Str.mem c (a +:+ b) = Str.mem c a || Str.mem c b.
Proof.
  induction a as [|x a IH]; simpl; [done|].
  rewrite IH. by rewrite orb_assoc.
Qed.

Lemma eqb_refl (s : string) : String.eqb s s = true.
Proof. apply String.eqb_refl. Qed.

Lemma eqb_false (s t : string) : s ≠ t -> String.eqb s t = false.
Proof. intros Hne. by apply String.eqb_neq. Qed.

End StrFacts.

(** ** The monad *)

Lemma bind_Ret {A B} (m : M A) (k : A -> M B) (st st' : State) (a : A) :
  m st = (Ret a, st') -> (x ← m; k x) st = k a st'.
Proof. intros Hm. unfold mbind, M_bind, bind. by rewrite Hm. Qed.

Lemma bind_Throw {A B} (m : M A) (k : A -> M B) (st st' : State) (e : exn) :
  m st = (Throw e, st') -> (x ← m; k x) st = (Throw e, st').
Proof. intros Hm. unfold mbind, M_bind, bind. by rewrite Hm. Qed.

Lemma mret_run {A} (a : A) (st : State) : (mret a : M A) st = (Ret a, st).
Proof. done. Qed.

(** ** Placeholders *)

Module PlaceholderFacts.
Import Placeholder StrFacts.

Lemma until_close_Some (s n : string) :
  until_close s = Some n ->
  Str.mem Str.rbrace n = false /\
  exists rest, s = n +:+ String Str.rbrace rest.
Proof.
  revert n. induction s as [|c s IH]; intros n; cbn [until_close]; [done|].
  destruct (Ascii.eqb c Str.rbrace) eqn:Hc.
  - intros [= <-]. apply Ascii.eqb_eq in Hc as ->. split; [done|]. by exists s.
  - destruct (until_close s) as [n'|]; [|done].
    intros [= <-]. destruct (IH n' eq_refl) as [Hm [rest ->]].
    split.
    + cbn [Str.mem]. rewrite Ascii.eqb_sym in Hc. by rewrite Hc.
    + by exists rest.
Qed.

Lemma until_close_append (n rest : string) :
  Str.mem Str.rbrace n = false ->
  until_close (n +:+ String Str.rbrace rest) = Some n.
Proof.
  induction n as [|c n IH]; cbn [Str.mem until_close String.append].
  { by rewrite Ascii.eqb_refl. }
  intros Hm. apply orb_false_elim in Hm as [Hc Hn].
  rewrite Ascii.eqb_sym in Hc. rewrite Hc. by rewrite (IH Hn).
Qed.

Lemma scan_skip (a b : string) (k : nat) :
  scan (String.length a + k) (a +:+ b) = scan k b.
Proof. induction a as [|c a IH]; simpl; done. Qed.

Lemma scan_two (c d : ascii) (r' : string) :
  scan 0 (String c (String d r'))
  = if Ascii.eqb c Str.dollar && Ascii.eqb d Str.lbrace then
      match until_close r' with
      | Some n => Tok n :: scan (2 + String.length n) (String d r')
      | None => Lit c :: scan 0 (String d r')
      end
    else Lit c :: scan 0 (String d r').
Proof. done. Qed.

Lemma token_append (n rest : string) :
  token n +:+ rest
  = String Str.dollar (String Str.lbrace (n +:+ String Str.rbrace rest)).
Proof.
  unfold token. cbn [String.append]. do 2 f_equal.
  by rewrite append_assoc.
Qed.

Lemma drop_match_tail (x : ascii) (n rest : string) :
  Str.drop (2 + String.length n) (String x (n +:+ String Str.rbrace rest)) = rest.
Proof.
  cbn [Nat.add Str.drop]. induction n as [|c n IH]; cbn [String.length String.append Str.drop]; done.
Qed.

Lemma scan_match_tail (x : ascii) (n rest : string) :
  scan (2 + String.length n) (String x (n +:+ String Str.rbrace rest))
  = scan 0 rest.
Proof.
  cbn [Nat.add scan]. induction n as [|c n IH]; cbn [String.length String.append scan].
  - by destruct rest.
  - done.
Qed.

(** Replacing every match by itself gives the subject back. *)
Lemma render_scan (s : string) (k : nat) : render_all (scan k s) = Str.drop k s.
Proof.
  revert k. induction s as [|c r IH]; intros k; [by destruct k|].
  destruct k as [|k]; [|apply IH].
  cbn [scan Str.drop]. destruct r as [|d r']; [done|].
  destruct (Ascii.eqb c Str.dollar && Ascii.eqb d Str.lbrace) eqn:Hcd;
    [|cbn [render_all render]; by rewrite IH].
  apply andb_true_iff in Hcd as [Hc Hd].
  apply Ascii.eqb_eq in Hc as ->. apply Ascii.eqb_eq in Hd as ->.
  destruct (until_close r') as [n|] eqn:Hn;
    [|cbn [render_all render]; by rewrite IH].
  destruct (until_close_Some _ _ Hn) as [_ [rest ->]].
  cbn [render_all render]. rewrite IH, drop_match_tail.
  apply token_append.
Qed.

Lemma render_pieces (s : string) : render_all (pieces s) = s.
Proof. apply render_scan. Qed.

(** Every match is an occurrence of a token in the subject. *)
Lemma scan_Tok (s : string) (k : nat) (n : string) :
  Tok n ∈ scan k s ->
  Str.mem Str.rbrace n = false /\
  exists pre post, s = pre +:+ token n +:+ post.
Proof.
  revert k. induction s as [|c r IH]; intros k; [destruct k; simpl; by intros ?%elem_of_nil|].
  assert (Hstep : forall j, Tok n ∈ scan j r ->
            Str.mem Str.rbrace n = false /\
            exists pre post, String c r = pre +:+ token n +:+ post).
  { intros j Hj. destruct (IH j Hj) as [Hm (pre & post & ->)].
    split; [done|]. by exists (String c pre), post. }
  destruct k as [|k]; [|apply Hstep].
  cbn [scan]. destruct r as [|d r']; [by intros [[=]|?%elem_of_nil]%elem_of_cons|].
  destruct (Ascii.eqb c Str.dollar && Ascii.eqb d Str.lbrace) eqn:Hcd.
  - apply andb_true_iff in Hcd as [Hc Hd].
    apply Ascii.eqb_eq in Hc as ->. apply Ascii.eqb_eq in Hd as ->.
    destruct (until_close r') as [m|] eqn:Hm.
    + intros [[= <-]|Hin]%elem_of_cons; [|by eapply Hstep].
      destruct (until_close_Some _ _ Hm) as [Hmem [rest ->]].
      split; [done|]. exists "", rest. by rewrite token_append.
    + intros [[=]|Hin]%elem_of_cons. by eapply Hstep.
  - intros [[=]|Hin]%elem_of_cons. by eapply Hstep.
Qed.

Lemma pieces_Tok (s n : string) :
  Tok n ∈ pieces s ->
  Str.mem Str.rbrace n = false /\
  exists pre post, s = pre +:+ token n +:+ post.
Proof. apply scan_Tok. Qed.

(** A subject without a dollar sign has no match. *)
Lemma pieces_no_dollar (s n : string) :
  Str.mem Str.dollar s = false -> Tok n ∉ pieces s.
Proof.
  intros Hs Hin. destruct (pieces_Tok _ _ Hin) as [_ (pre & post & ->)].
  rewrite mem_append in Hs. apply orb_false_elim in Hs as [_ Hs].
  rewrite token_append in Hs. cbn [Str.mem] in Hs.
  by rewrite Ascii.eqb_refl in Hs.
Qed.

Lemma scan_lits (pre rest : string) :
  Str.mem Str.dollar pre = false ->
  scan 0 (pre +:+ rest) = lits pre ++ scan 0 rest.
Proof.
  induction pre as [|c pre IH]; [done|].
  cbn [Str.mem]. intros [Hc Hpre]%orb_false_elim.
  change (String c pre +:+ rest) with (String c (pre +:+ rest)).
  change (lits (String c pre) ++ scan 0 rest)
    with (Lit c :: (lits pre ++ scan 0 rest)).
  rewrite <- (IH Hpre).
  destruct (pre +:+ rest) as [|d r']; [done|].
  cbn [scan]. rewrite Ascii.eqb_sym in Hc. by rewrite Hc.
Qed.

Lemma scan_token (n rest : string) :
  Str.mem Str.rbrace n = false ->
  scan 0 (token n +:+ rest) = Tok n :: scan 0 rest.
Proof.
  intros Hn. rewrite token_append, scan_two.
  rewrite !Ascii.eqb_refl. cbn [andb].
  rewrite (until_close_append _ _ Hn). f_equal.
  apply scan_match_tail.
Qed.

Lemma scan_only_lits (s : string) :
  Str.mem Str.dollar s = false -> scan 0 s = lits s.
Proof.
  intros Hs. rewrite <- (append_nil_r s) at 1.
  rewrite (scan_lits _ _ Hs). simpl. by rewrite app_nil_r.
Qed.

(** The one placeholder of a subject that has no other dollar sign. *)
Lemma pieces_single (pre n post : string) :
  Str.mem Str.dollar pre = false ->
  Str.mem Str.dollar post = false ->
  Str.mem Str.rbrace n = false ->
  pieces (pre +:+ token n +:+ post) = lits pre ++ Tok n :: lits post.
Proof.
  intros Hpre Hpost Hn. unfold pieces.
  rewrite (scan_lits _ _ Hpre), (scan_token _ _ Hn).
  by rewrite (scan_only_lits _ Hpost).
Qed.

End PlaceholderFacts.

Module OccursFacts.
Import Placeholder StrFacts PlaceholderFacts.

Lemma candidates_cons (c : ascii) (r n : string) :
  n ∈ candidates r -> n ∈ candidates (String c r).
Proof.
  intros Hn. cbn [candidates]. destruct r as [|d r'].
  - cbn [candidates] in Hn. by apply elem_of_nil in Hn.
  - destruct (Ascii.eqb c Str.dollar && Ascii.eqb d Str.lbrace); [|done].
    destruct (until_close r'); [by apply list_elem_of_further | done].
Qed.

(** [candidates] lists every token that occurs. *)
Lemma occurs_candidates (n s : string) : occurs n s -> n ∈ candidates s.
Proof.
  intros [Hn (pre & post & ->)].
  induction pre as [|c pre IH].
  - change ("" +:+ token n +:+ post) with (token n +:+ post).
    rewrite token_append. cbn [candidates].
    rewrite !Ascii.eqb_refl. cbn [andb].
    rewrite (until_close_append _ _ Hn). apply list_elem_of_here.
  - apply candidates_cons, IH.
Qed.

Lemma pieces_occurs (s n : string) : Tok n ∈ pieces s -> occurs n s.
Proof. apply pieces_Tok. Qed.

End OccursFacts.

(** ** Placeholder substitution *)

Ltac run_M :=
  unfold mbind, M_bind, bind, mret, M_ret, ret, throw, try_catch, lift.

Section SubstitutionFacts.
Context `{Helpers}.
Variable value : ValueBase -> M any.
Import Placeholder StrFacts PlaceholderFacts OccursFacts.

Lemma callback_other (v : ValueBase) (vn m n : string) (st : State) :
  normalizeString (JStr n) ≠ vn ->
  callback value v vn m n st = (Ret m, st).
Proof.
  intros Hne. unfold callback. by rewrite (eqb_false _ _ Hne).
Qed.

Lemma callback_hit (v : ValueBase) (vn m n : string) (st st' : State) (x : any) :
  normalizeString (JStr n) = vn ->
  value v st = (Ret x, st') ->
  callback value v vn m n st = (Ret (toStringSafe x), st').
Proof.
  intros <- Hv. unfold callback. rewrite eqb_refl. run_M. by rewrite Hv.
Qed.

Lemma callback_returns (v : ValueBase) (vn m n : string) (st : State) :
  exists r st', callback value v vn m n st = (Ret r, st').
Proof.
  unfold callback. destruct (String.eqb _ _); [|by eexists _, _].
  run_M. destruct (value v st) as [[x|e] st']; by eexists _, _.
Qed.

Lemma replace_returns (cb : string -> string -> M string) (ps : list piece) :
  (forall m n st, exists r st', cb m n st = (Ret r, st')) ->
  forall st, exists r st', replace cb ps st = (Ret r, st').
Proof.
  intros Hcb. induction ps as [|[c|n] ps IH]; intros st.
  - by eexists _, _.
  - destruct (IH st) as (r & st' & Hr). exists (String c r), st'.
    cbn [replace]. by rewrite (bind_Ret _ _ _ _ _ Hr).
  - destruct (Hcb (token n) n st) as (x & st1 & Hx).
    destruct (IH st1) as (r & st' & Hr). exists (x +:+ r), st'.
    cbn [replace]. rewrite (bind_Ret _ _ _ _ _ Hx).
    by rewrite (bind_Ret _ _ _ _ _ Hr).
Qed.

(** A callback that gives every match back leaves the subject as it is. *)
Lemma replace_identity (cb : string -> string -> M string) (ps : list piece) :
  (forall n, Tok n ∈ ps -> forall st, exists st', cb (token n) n st = (Ret (token n), st')) ->
  forall st, exists st', replace cb ps st = (Ret (render_all ps), st').
Proof.
  induction ps as [|[c|n] ps IH]; intros Hcb st.
  - by eexists.
  - destruct (IH (fun n Hn => Hcb n (list_elem_of_further _ _ _ Hn)) st) as (st' & Hr).
    exists st'. cbn [replace]. by rewrite (bind_Ret _ _ _ _ _ Hr).
  - destruct (Hcb n (list_elem_of_here _ _) st) as (st1 & Hx).
    destruct (IH (fun n Hn => Hcb n (list_elem_of_further _ _ _ Hn)) st1) as (st' & Hr).
    exists st'. cbn [replace]. rewrite (bind_Ret _ _ _ _ _ Hx).
    by rewrite (bind_Ret _ _ _ _ _ Hr).
Qed.

(** The same, for a callback that does not touch the state. *)
Lemma replace_identity_pure (cb : string -> string -> M string) (ps : list piece) :
  (forall n, Tok n ∈ ps -> forall st, cb (token n) n st = (Ret (token n), st)) ->
  forall st, replace cb ps st = (Ret (render_all ps), st).
Proof.
  induction ps as [|[c|n] ps IH]; intros Hcb st.
  - done.
  - cbn [replace].
    by rewrite (bind_Ret _ _ _ _ _ (IH (fun n Hn => Hcb n (list_elem_of_further _ _ _ Hn)) st)).
  - cbn [replace]. rewrite (bind_Ret _ _ _ _ _ (Hcb n (list_elem_of_here _ _) st)).
    by rewrite (bind_Ret _ _ _ _ _ (IH (fun n Hn => Hcb n (list_elem_of_further _ _ _ Hn)) st)).
Qed.

Lemma replace_lits (cb : string -> string -> M string) (s : string)
    (ps : list piece) (st st' : State) (r : string) :
  replace cb ps st = (Ret r, st') ->
  replace cb (lits s ++ ps) st = (Ret (s +:+ r), st').
Proof.
  intros Hr. induction s as [|c s IH]; [done|].
  cbn [lits app replace]. by rewrite (bind_Ret _ _ _ _ _ IH).
Qed.

Lemma replace_only_lits (cb : string -> string -> M string) (s : string)
    (st : State) :
  replace cb (lits s) st = (Ret s, st).
Proof.
  induction s as [|c s IH]; [done|].
  cbn [lits replace]. by rewrite (bind_Ret _ _ _ _ _ IH).
Qed.

(** A pass over a subject none of whose tokens has the name of [v]. *)
Lemma pass_other (v : ValueBase) (str : string) (st : State) :
  (forall n, Tok n ∈ pieces str ->
             normalizeString (JStr n) ≠ normalizeString (name v)) ->
  pass value v str st = (Ret str, st).
Proof.
  intros Hne. unfold pass.
  rewrite replace_identity_pure; [by rewrite render_pieces|].
  intros n Hn st0. by apply callback_other, Hne.
Qed.

(** A pass for a Value whose accessor throws. *)
Lemma pass_throws (v : ValueBase) (str : string) (st : State) :
  always_throws value v ->
  exists st', pass value v str st = (Ret str, st').
Proof.
  intros Hv. unfold pass.
  destruct (replace_identity (callback value v (normalizeString (name v)))
              (pieces str)) with (st := st) as (st' & Hr).
  - intros n _ st0. unfold callback.
    destruct (String.eqb _ _); [|by eexists].
    destruct (Hv st0) as (e & st1 & He). exists st1. run_M. by rewrite He.
  - exists st'. by rewrite Hr, render_pieces.
Qed.

Lemma pass_returns (v : ValueBase) (str : string) (st : State) :
  exists str' st', pass value v str st = (Ret str', st').
Proof.
  unfold pass. apply replace_returns. intros m n st0. apply callback_returns.
Qed.

Lemma forEach_pass_returns (vs : list ValueBase) (str : string) (st : State) :
  exists str' st', forEach_pass value vs str st = (Ret str', st').
Proof.
  revert str st. induction vs as [|v vs IH]; intros str st.
  - by eexists _, _.
  - destruct (pass_returns v str st) as (str1 & st1 & H1).
    destruct (IH str1 st1) as (str' & st' & H2).
    exists str', st'. cbn [forEach_pass]. by rewrite (bind_Ret _ _ _ _ _ H1).
Qed.

Lemma forEach_pass_app (vs1 vs2 : list ValueBase) (str str1 : string)
    (st st1 : State) :
  forEach_pass value vs1 str st = (Ret str1, st1) ->
  forEach_pass value (vs1 ++ vs2) str st = forEach_pass value vs2 str1 st1.
Proof.
  revert str st. induction vs1 as [|v vs1 IH]; intros str st.
  - by intros [= -> ->].
  - cbn [forEach_pass app].
    destruct (pass_returns v str st) as (str0 & st0 & H0).
    rewrite !(bind_Ret _ _ _ _ _ H0). apply IH.
Qed.

Lemma forEach_pass_other (vs : list ValueBase) (str : string) (st : State) :
  (forall v n, v ∈ vs -> Tok n ∈ pieces str ->
               normalizeString (JStr n) ≠ normalizeString (name v)) ->
  forEach_pass value vs str st = (Ret str, st).
Proof.
  induction vs as [|v vs IH]; intros Hne; [done|].
  cbn [forEach_pass]. rewrite (bind_Ret _ _ st st str).
  - apply IH. intros w n Hw. apply Hne. by apply list_elem_of_further.
  - apply pass_other. intros n. apply Hne. apply list_elem_of_here.
Qed.

End SubstitutionFacts.

Section ReplaceWithValues.
Context `{Helpers}.
Variable value : ValueBase -> M any.
Import Placeholder StrFacts PlaceholderFacts OccursFacts.

Lemma replaceWithValues_JStr (values : list ValueBase) (s : string) (st : State) :
  replaceWithValues value values (JStr s) st
  = (str' ← forEach_pass value values s; mret (JStr str')) st.
Proof.
  unfold replaceWithValues.
  by rewrite isNullOrUndefined_JStr, toStringSafe_JStr.
Qed.

(** C6: a string in which no token has the normalized name of one of
    the Values comes back unchanged, with no accessor run; with no
    Values at all a token stays as it is. *)
Theorem replaceWithValues_without_match (values : list ValueBase)
    (s : string) (st : State) :
  (forall v n, v ∈ values -> occurs n s ->
               normalizeString (JStr n) ≠ normalizeString (name v)) ->
  replaceWithValues value values (JStr s) st = (Ret (JStr s), st)
  /\ replaceWithValues value [] (JStr "${x}") st = (Ret (JStr "${x}"), st).
Proof.
  intros Hne. split.
  - rewrite replaceWithValues_JStr.
    rewrite (bind_Ret _ _ st st s); [done|].
    apply forEach_pass_other. intros v n Hv Hn.
    apply Hne; [done|]. by apply pieces_occurs.
  - by rewrite replaceWithValues_JStr.
Qed.

(** C4: when the accessor of a Value throws, the callback gives the
    matched text back; the pass of a Value whose accessor throws leaves
    the string as it was, and the passes of the Values after it go on
    from there; no call of [replaceWithValues] throws.  If the failing
    accessor leaves the state alone, the outcome is that of the call
    without the Value. *)
Theorem replaceWithValues_accessor_throws (v : ValueBase)
    (vs1 vs2 : list ValueBase) :
  (forall vn m n st e st',
      value v st = (Throw e, st') ->
      exists st'', callback value v vn m n st = (Ret m, st''))
  /\ (always_throws value v ->
      forall str st, exists str1 st1 st2,
        forEach_pass value vs1 str st = (Ret str1, st1)
        /\ pass value v str1 st1 = (Ret str1, st2)
        /\ forEach_pass value (vs1 ++ v :: vs2) str st
           = forEach_pass value vs2 str1 st2)
  /\ (forall values val st, exists r st',
        replaceWithValues value values val st = (Ret r, st'))
  /\ ((forall st, exists e, value v st = (Throw e, st)) ->
      forall val st,
        replaceWithValues value (vs1 ++ v :: vs2) val st
        = replaceWithValues value (vs1 ++ vs2) val st).
Proof.
  split; [|split; [|split]].
  - intros vn m n st e st' He. unfold callback.
    destruct (String.eqb _ _); [|by eexists].
    exists st'. run_M. by rewrite He.
  - intros Hv str st.
    destruct (forEach_pass_returns value vs1 str st) as (str1 & st1 & H1).
    destruct (pass_throws value v str1 st1 Hv) as (st2 & H2).
    exists str1, st1, st2. split; [done|]. split; [done|].
    rewrite (forEach_pass_app value _ _ _ _ _ _ H1).
    cbn [forEach_pass]. by rewrite (bind_Ret _ _ _ _ _ H2).
  - intros values val st. unfold replaceWithValues.
    destruct (negb _); [|by eexists _, _].
    destruct (forEach_pass_returns value values (toStringSafe val) st)
      as (str' & st' & Hr).
    exists (JStr str'), st'. by rewrite (bind_Ret _ _ _ _ _ Hr).
  - intros Hpure val st. unfold replaceWithValues.
    destruct (negb _); [|done].
    destruct (forEach_pass_returns value vs1 (toStringSafe val) st)
      as (str1 & st1 & H1).
    assert (H2 : pass value v str1 st1 = (Ret str1, st1)).
    { unfold pass. rewrite replace_identity_pure; [by rewrite render_pieces|].
      intros n _ st0. unfold callback.
      destruct (String.eqb _ _); [|done].
      destruct (Hpure st0) as (e & He). run_M. by rewrite He. }
    unfold mbind, M_bind, bind.
    rewrite !(forEach_pass_app value _ _ _ _ _ _ H1).
    cbn [forEach_pass]. by rewrite (bind_Ret _ _ _ _ _ H2).
Qed.

(** C2, amended: of the Values that share a normalized name the first
    in iteration order is substituted for the token; the passes of the
    later ones find no token left.  Stated for a string whose only
    dollar sign is that of the token, and a substituted text without
    one. *)
Theorem replaceWithValues_first_value_wins (vs1 vs2 : list ValueBase)
    (a : ValueBase) (pre n post : string) (x : any) (st st' : State) :
  Str.mem Str.dollar pre = false ->
  Str.mem Str.dollar post = false ->
  Str.mem Str.rbrace n = false ->
  (forall v, v ∈ vs1 -> normalizeString (name v) ≠ normalizeString (JStr n)) ->
  normalizeString (name a) = normalizeString (JStr n) ->
  value a st = (Ret x, st') ->
  Str.mem Str.dollar (toStringSafe x) = false ->
  replaceWithValues value (vs1 ++ a :: vs2) (JStr (pre +:+ token n +:+ post)) st
  = (Ret (JStr (pre +:+ toStringSafe x +:+ post)), st').
Proof.
  intros Hpre Hpost Hn Hvs1 Ha Hx Hx'.
  rewrite replaceWithValues_JStr.
  set (s := pre +:+ token n +:+ post).
  assert (H1 : forEach_pass value vs1 s st = (Ret s, st)).
  { apply forEach_pass_other. intros v m Hv Hm.
    unfold s in Hm. rewrite (pieces_single _ _ _ Hpre Hpost Hn) in Hm.
    apply elem_of_app in Hm as [Hm|Hm].
    - exfalso. clear -Hm. induction pre as [|c p IH]; cbn [lits] in Hm.
      + by apply elem_of_nil in Hm.
      + apply elem_of_cons in Hm as [[=]|Hm]. by apply IH.
    - apply elem_of_cons in Hm as [[= ->]|Hm].
      + intros Heq. by apply (Hvs1 v Hv).
      + exfalso. clear -Hm. induction post as [|c p IH]; cbn [lits] in Hm.
        * by apply elem_of_nil in Hm.
        * apply elem_of_cons in Hm as [[=]|Hm]. by apply IH. }
  assert (H2 : pass value a s st = (Ret (pre +:+ toStringSafe x +:+ post), st')).
  { unfold pass, s. rewrite (pieces_single _ _ _ Hpre Hpost Hn).
    apply replace_lits. cbn [replace].
    rewrite (bind_Ret _ _ _ _ _ (callback_hit value a _ (token n) n st st' x (eq_sym Ha) Hx)).
    by rewrite (bind_Ret _ _ st' st' post (replace_only_lits _ _ _)). }
  assert (H3 : forEach_pass value vs2 (pre +:+ toStringSafe x +:+ post) st'
               = (Ret (pre +:+ toStringSafe x +:+ post), st')).
  { apply forEach_pass_other. intros v m _ Hm. exfalso.
    apply (pieces_no_dollar (pre +:+ toStringSafe x +:+ post) m); [|done].
    by rewrite !mem_append, Hpre, Hx', Hpost. }
  unfold mbind, M_bind, bind.
  rewrite (forEach_pass_app value _ _ _ _ _ _ H1).
  cbn [forEach_pass]. rewrite (bind_Ret _ _ _ _ _ H2). by rewrite H3.
Qed.

End ReplaceWithValues.

(** ** [toValueObjects] and [otherValues] *)

Section ConstructionFacts.
Context `{Helpers}.
Variable cfg : option deploy_contracts.DeployConfiguration.

Lemma forEach_item_array (result : loc)
    (items : list deploy_contracts.ValueWithName) (idx : nat) (h : Heap)
    (arr : list ValueBase) :
  h !! result = Some arr ->
  forEach_item cfg result items idx h !! result
  = Some (arr ++ pushed cfg result items idx).
Proof.
  revert idx h arr. induction items as [|i rest IH]; intros idx h arr Harr.
  - cbn [forEach_item pushed]. by rewrite app_nil_r.
  - cbn [forEach_item pushed]. unfold forEach_body.
    destruct (construct i cfg) as [newValue|].
    + rewrite (IH _ _ (arr ++ [wire result idx newValue])).
      * by rewrite <- app_assoc.
      * unfold push. rewrite Harr. cbn [default]. apply lookup_insert_eq.
    + by apply IH.
Qed.

Lemma toValueObjects_spec (items : list (option deploy_contracts.ValueWithName))
    (h : Heap) :
  let '(result, h') := toValueObjects items cfg h in
  result = fresh (dom h)
  /\ h' !! result = Some (pushed cfg result (omap (fun i => i) items) 0).
Proof.
  unfold toValueObjects. split; [done|].
  rewrite (forEach_item_array _ _ _ _ []); [done|]. apply lookup_insert_eq.
Qed.

(** Where a pushed Value comes from. *)
Lemma pushed_lookup (result : loc)
    (items : list deploy_contracts.ValueWithName) (idx k : nat) (v : ValueBase) :
  pushed cfg result items idx !! k = Some v ->
  exists j i newValue,
    items !! j = Some i
    /\ construct i cfg = Some newValue
    /\ v = wire result (idx + j) newValue
    /\ k = count_recognized cfg (take j items).
Proof.
  revert idx k. induction items as [|i rest IH]; intros idx k; [done|].
  cbn [pushed]. destruct (construct i cfg) as [newValue|] eqn:Hi.
  - destruct k as [|k].
    + intros [= <-]. exists 0%nat, i, newValue.
      by rewrite Nat.add_0_r.
    + intros Hk. destruct (IH _ _ Hk) as (j & i' & nv & Hj & Hc & -> & ->).
      exists (S j), i', nv. split; [done|]. split; [done|].
      split; [by rewrite Nat.add_succ_r|].
      cbn [take count_recognized]. unfold recognized. by rewrite Hi.
  - intros Hk. destruct (IH _ _ Hk) as (j & i' & nv & Hj & Hc & -> & ->).
    exists (S j), i', nv. split; [done|]. split; [done|].
    split; [by rewrite Nat.add_succ_r|].
    cbn [take count_recognized]. unfold recognized. by rewrite Hi.
Qed.

Lemma pushed_id_ge (result : loc)
    (items : list deploy_contracts.ValueWithName) (idx : nat) (v : ValueBase) :
  v ∈ pushed cfg result items idx ->
  exists j, id v = JNum (Z.of_nat j) /\ (idx <= j)%nat.
Proof.
  intros [k Hk]%list_elem_of_lookup.
  destruct (pushed_lookup _ _ _ _ _ Hk) as (j & i & nv & _ & _ & -> & _).
  exists (idx + j)%nat. split; [done | lia].
Qed.

(** The ids grow along the array. *)
Lemma pushed_ids_increase (result : loc)
    (items : list deploy_contracts.ValueWithName) (idx k1 k2 : nat)
    (v1 v2 : ValueBase) :
  (k1 < k2)%nat ->
  pushed cfg result items idx !! k1 = Some v1 ->
  pushed cfg result items idx !! k2 = Some v2 ->
  exists j1 j2, id v1 = JNum (Z.of_nat j1) /\ id v2 = JNum (Z.of_nat j2)
                /\ (j1 < j2)%nat.
Proof.
  revert idx k1 k2. induction items as [|i rest IH]; intros idx k1 k2 Hlt; [done|].
  cbn [pushed]. destruct (construct i cfg) as [newValue|]; [|by apply IH].
  destruct k2 as [|k2]; [lia|]. destruct k1 as [|k1].
  - intros [= <-] H2. cbn [lookup list_lookup] in H2.
    destruct (pushed_id_ge result rest (S idx) v2) as (j2 & Hj2 & Hge).
    { apply list_elem_of_lookup. by exists k2. }
    exists idx, j2. split; [done|]. split; [done | lia].
  - intros H1 H2. apply (IH (S idx) k1 k2); [lia | done | done].
Qed.

End ConstructionFacts.

Lemma filter_all {A} (P : A -> Prop) `{forall x, Decision (P x)} (L : list A) :
  (forall x, x ∈ L -> P x) -> filter P L = L.
Proof.
  induction L as [|x L IH]; intros HP; [done|].
  rewrite filter_cons_True; [|apply HP, list_elem_of_here].
  f_equal. apply IH. intros y Hy. by apply HP, list_elem_of_further.
Qed.

(** Filtering an array by an id that one element only carries. *)
Lemma filter_by_id (L : list ValueBase) (k : nat) (v : ValueBase) :
  L !! k = Some v ->
  strict_neq (id v) (id v) = false ->
  (forall k' w, k' ≠ k -> L !! k' = Some w -> strict_neq (id w) (id v) = true) ->
  filter (fun x => Is_true (strict_neq (id x) (id v))) L = take k L ++ drop (S k) L.
Proof.
  revert k. induction L as [|x L IH]; intros k Hk Hv Hother; [done|].
  destruct k as [|k].
  - cbn [lookup list_lookup] in Hk. injection Hk as ->.
    rewrite filter_cons_False; [|cbn beta; rewrite Hv; exact (fun f => f)].
    cbn [take drop app]. apply filter_all.
    intros w [k' Hk']%list_elem_of_lookup.
    cbn beta. by rewrite (Hother (S k') w).
  - cbn [lookup list_lookup] in Hk.
    rewrite filter_cons_True; [|cbn beta; by rewrite (Hother 0%nat x)].
    cbn [take drop app]. f_equal. apply IH; [done | done |].
    intros k' w Hne Hw. apply (Hother (S k') w); [lia | done].
Qed.

Section ToValueObjects.
Context `{Helpers}.
Variable cfg : option deploy_contracts.DeployConfiguration.
Variable items : list (option deploy_contracts.ValueWithName).
Variable h : Heap.

(** The array that was returned, the heap that holds it, and the
    definitions that are not falsy. *)
Local Abbreviation result := ((toValueObjects items cfg h).1).
Local Abbreviation h' := (toValueObjects_heap items cfg h).
Local Abbreviation R := (toValueObjects_array items cfg h).
Local Abbreviation defs := (omap (fun i => i) items).

Lemma toValueObjects_array_pushed : R = pushed cfg result defs 0.
Proof.
  unfold toValueObjects_array, toValueObjects_heap.
  pose proof (toValueObjects_spec cfg items h) as Hs.
  destruct (toValueObjects items cfg h) as [r hh].
  destruct Hs as [_ Hs]. cbn [fst snd]. by rewrite Hs.
Qed.

Lemma toValueObjects_heap_array : h' !! result = Some R.
Proof.
  pose proof (toValueObjects_spec cfg items h) as Hs.
  unfold toValueObjects_array, toValueObjects_heap.
  destruct (toValueObjects items cfg h) as [r hh].
  destruct Hs as [_ Hs]. cbn [fst snd]. by rewrite Hs.
Qed.

Lemma construct_item (i : deploy_contracts.ValueWithName) (newValue : ValueBase) :
  construct i cfg = Some newValue -> item newValue = i.
Proof.
  unfold construct.
  repeat (match goal with
          | |- context [if ?b then _ else _] => destruct b
          end; [by intros [= <-]|]).
  done.
Qed.

Lemma produced_ids_differ (k k' : nat) (v w : ValueBase) :
  R !! k = Some v -> R !! k' = Some w -> k' ≠ k ->
  strict_neq (id w) (id v) = true.
Proof.
  rewrite toValueObjects_array_pushed. intros Hv Hw Hne.
  destruct (Nat.lt_total k k') as [Hlt|[->|Hlt]]; [| done |].
  - destruct (pushed_ids_increase cfg _ _ _ _ _ _ _ Hlt Hv Hw)
      as (j1 & j2 & -> & -> & Hj).
    cbn [strict_neq]. apply negb_true_iff, Z.eqb_neq. lia.
  - destruct (pushed_ids_increase cfg _ _ _ _ _ _ _ Hlt Hw Hv)
      as (j1 & j2 & -> & -> & Hj).
    cbn [strict_neq]. apply negb_true_iff, Z.eqb_neq. lia.
Qed.

Lemma produced_otherValues (k : nat) (v : ValueBase) :
  R !! k = Some v ->
  otherValueProvider v = Some (SiblingFilter result)
  /\ otherValues h' v = filter (fun x => Is_true (strict_neq (id x) (id v))) R
  /\ otherValues h' v = take k R ++ drop (S k) R.
Proof.
  intros Hv. pose proof Hv as Hv'. rewrite toValueObjects_array_pushed in Hv'.
  destruct (pushed_lookup cfg _ _ _ _ _ Hv') as (j & i & nv & _ & _ & Hw & _).
  assert (Hp : otherValueProvider v = Some (SiblingFilter result)) by by subst v.
  assert (Ho : otherValues h' v
               = filter (fun x => Is_true (strict_neq (id x) (id v))) R).
  { unfold otherValues. rewrite Hp. cbn [app call_provider].
    by rewrite toValueObjects_heap_array. }
  split; [done|]. split; [done|]. rewrite Ho.
  apply filter_by_id; [done | |].
  - subst v. cbn [wire set_otherValueProvider set_id id strict_neq].
    by rewrite Z.eqb_refl.
  - intros k' w Hne Hw'. by apply (produced_ids_differ k k').
Qed.

(** C3, amended: the [id] of a produced Value is the index of its
    definition in the input once the falsy entries are dropped; an entry
    with an unknown type tag produces nothing and still takes an index,
    so the position of the Value in the produced array is that index
    less the entries skipped before it.  The ids are pairwise distinct,
    and the provider returns the produced array of the same call without
    the Value itself, which it tells by its [id]. *)
Theorem toValueObjects_ids (k : nat) (v : ValueBase) :
  R !! k = Some v ->
  (exists j, defs !! j = Some (item v)
             /\ id v = JNum (Z.of_nat j)
             /\ k = count_recognized cfg (take j defs))
  /\ (forall k' w, R !! k' = Some w -> k' ≠ k -> id w ≠ id v)
  /\ otherValues h' v = filter (fun x => Is_true (strict_neq (id x) (id v))) R
  /\ otherValues h' v = take k R ++ drop (S k) R.
Proof.
  intros Hv. split; [|split].
  - pose proof Hv as Hv'. rewrite toValueObjects_array_pushed in Hv'.
    destruct (pushed_lookup cfg _ _ _ _ _ Hv') as (j & i & nv & Hj & Hc & -> & Hk).
    exists j. split; [|by split].
    unfold wire, item. cbn [set_otherValueProvider set_id _ITEM].
    by rewrite <- (construct_item _ _ Hc) in Hj.
  - intros k' w Hw Hne Heq.
    pose proof (produced_ids_differ k k' v w Hv Hw Hne) as Hd.
    rewrite Heq in Hd. pose proof Hv as Hv'.
    rewrite toValueObjects_array_pushed in Hv'.
    destruct (pushed_lookup cfg _ _ _ _ _ Hv') as (j & i & nv & _ & _ & -> & _).
    cbn [wire set_otherValueProvider set_id id strict_neq] in Hd.
    by rewrite Z.eqb_refl in Hd.
  - by destruct (produced_otherValues k v Hv) as (_ & ? & ?).
Qed.

(** C5: in the array [R] a call returns, the [otherValues] of a Value
    never hold the Value itself and hold every other element of [R], those
    pushed before it and those pushed after it. *)
Theorem toValueObjects_siblings (v : ValueBase) :
  v ∈ R ->
  (v ∉ otherValues h' v)
  /\ (forall w, w ∈ R -> w ≠ v -> w ∈ otherValues h' v)
  /\ (forall w, w ∈ otherValues h' v -> w ∈ R).
Proof.
  intros [k Hv]%list_elem_of_lookup.
  destruct (produced_otherValues k v Hv) as (_ & Ho & _). rewrite Ho.
  split; [|split].
  - intros [Hself _]%list_elem_of_filter.
    pose proof Hv as Hv'. rewrite toValueObjects_array_pushed in Hv'.
    destruct (pushed_lookup cfg _ _ _ _ _ Hv') as (j & i & nv & _ & _ & -> & _).
    cbn [wire set_otherValueProvider set_id id strict_neq] in Hself.
    by rewrite Z.eqb_refl in Hself.
  - intros w [k' Hw]%list_elem_of_lookup Hne.
    apply list_elem_of_filter. split.
    + rewrite (produced_ids_differ k k' v w Hv Hw); [done|].
      intros ->. rewrite Hv in Hw. by injection Hw as ->.
    + apply list_elem_of_lookup. by exists k'.
  - by intros w [_ Hw]%list_elem_of_filter.
Qed.

End ToValueObjects.

(** ** [EnvValue] *)

Section EnvValueFacts.
Context `{Helpers}.
Variable P : Platform.

Lemma env_loop_found (myName : string) (env1 env2 : list (string * string))
    (p x : string) :
  Str.trim p = myName ->
  (forall q y, (q, y) ∈ env1 -> Str.trim q ≠ myName) ->
  env_loop myName (env1 ++ (p, x) :: env2) = JStr x.
Proof.
  intros Hp. induction env1 as [|[q y] env1 IH]; intros Hne.
  - cbn [app env_loop]. rewrite toStringSafe_JStr, Hp.
    by rewrite String.eqb_refl.
  - cbn [app env_loop]. rewrite toStringSafe_JStr.
    rewrite (StrFacts.eqb_false (Str.trim q) myName).
    + apply IH. intros q' y' Hin. apply (Hne q' y').
      by apply list_elem_of_further.
    + apply (Hne q y), list_elem_of_here.
Qed.

Lemma env_loop_missing (myName : string) (env : list (string * string)) :
  (forall q y, (q, y) ∈ env -> Str.trim q ≠ myName) ->
  env_loop myName env = undefined.
Proof.
  induction env as [|[q y] env IH]; intros Hne; [done|].
  cbn [env_loop]. rewrite toStringSafe_JStr.
  rewrite (StrFacts.eqb_false (Str.trim q) myName).
  - apply IH. intros q' y' Hin. apply (Hne q' y').
    by apply list_elem_of_further.
  - apply (Hne q y), list_elem_of_here.
Qed.

(** C7: without an alias the name of an Environment Value is the
    configured variable name, with one it is the alias; the value is that
    of the first environment variable whose trimmed name is, letter for
    letter, the trimmed configured name, whatever the alias. *)
Theorem EnvValue_name_and_lookup (h : Heap) (stack : nat) (me : ValueBase)
    (st : State) :
  class_of me = EnvValue ->
  (alias me = undefined -> name me = deploy_contracts.name (item me))
  /\ (isEmptyString (alias me) = false -> name me = alias me)
  /\ (forall a, value P h (S stack) (set_alias a me) st
                = value P h (S stack) me st)
  /\ (forall env1 p x env2,
        process_env P = env1 ++ (p, x) :: env2 ->
        Str.trim p = Str.trim (toStringSafe (realName me)) ->
        (forall q y, (q, y) ∈ env1 ->
                     Str.trim q ≠ Str.trim (toStringSafe (realName me))) ->
        value P h (S stack) me st = (Ret (JStr x), st))
  /\ ((forall q y, (q, y) ∈ process_env P ->
                   Str.trim q ≠ Str.trim (toStringSafe (realName me))) ->
      value P h (S stack) me st = (Ret undefined, st)).
Proof.
  intros Hc. split; [|split; [|split; [|split]]].
  - intros Ha. unfold name. by rewrite Hc, Ha, isEmptyString_undefined.
  - intros Ha. unfold name. by rewrite Hc, Ha.
  - intros a. cbn [value]. unfold value_of. cbn [set_alias class_of].
    by rewrite Hc.
  - intros env1 p x env2 Henv Hp Hne. cbn [value]. unfold value_of.
    rewrite Hc. unfold EnvValue_value. rewrite Henv.
    by rewrite (env_loop_found _ _ _ _ _ Hp Hne).
  - intros Hne. cbn [value]. unfold value_of. rewrite Hc.
    unfold EnvValue_value. by rewrite (env_loop_missing _ _ Hne).
Qed.

End EnvValueFacts.

(** ** [ScriptValue] and the module-level stores *)

Section ScriptValueFacts.
Context `{Helpers}.
Variable P : Platform.
Variable h : Heap.

(** The path of the script once its placeholders are replaced: the
    substitution returns, whatever the sibling Values do. *)
Lemma ScriptValue_script_returns (value : ValueBase -> M any)
    (me : ValueBase) (st : State) :
  exists script st1,
    replaceWithValues value (otherValues h me)
      (JStr (toStringSafe (deploy_contracts.script (item me)))) st
    = (Ret (JStr script), st1).
Proof.
  rewrite replaceWithValues_JStr.
  destruct (forEach_pass_returns value (otherValues h me)
              (toStringSafe (deploy_contracts.script (item me))) st)
    as (str & st1 & Hr).
  exists str, st1. by rewrite (bind_Ret _ _ _ _ _ Hr).
Qed.

Lemma ScriptValue_run_undefined (value : ValueBase -> M any) (me : ValueBase)
    (script : any) (st : State) :
  no_getValue P script ->
  ScriptValue_run P h value me script st = (Ret undefined, st).
Proof.
  unfold ScriptValue_run.
  intros [-> | [He | (p & Hp & Hcase)]].
  - by rewrite isEmptyString_empty.
  - by rewrite He.
  - destruct (isEmptyString script); [done|]. cbn [negb].
    unfold mbind, M_bind, bind, lift. rewrite Hp.
    destruct Hcase as [Hex | [Hnone | (m & Hm & Hg)]].
    + by rewrite Hex.
    + destruct (FS_existsSync P p); [|done]. by rewrite Hnone.
    + destruct (FS_existsSync P p); [|done]. by rewrite Hm, Hg.
Qed.

(** A module whose [getValue] is truthy and not a function: the call
    throws, and no function of the module has run. *)
Lemma ScriptValue_run_not_a_function (value : ValueBase -> M any)
    (me : ValueBase) (script : any) (st : State) (p : string)
    (m : ScriptValueModule) (v : any) :
  isEmptyString script = false ->
  resolve_path P script = Ret p ->
  FS_existsSync P p = true ->
  loadModule P p = Ret (Some m) ->
  getValue m = NotFunction v ->
  truthy v = true ->
  exists msg,
    ScriptValue_run P h value me script st = (Throw (TypeError msg), st).
Proof.
  intros He Hp Hex Hm Hg Hv. unfold ScriptValue_run.
  rewrite He. cbn [negb]. unfold mbind, M_bind, bind, lift.
  rewrite Hp, Hex, Hm, Hg. cbn [Export_truthy]. rewrite Hv. by eexists.
Qed.

(** C10: the placeholders of the configured path are replaced, which
    always returns; if the path is then empty, or no file is at the
    resolved path, or the module loaded from it is falsy or has no
    [getValue] or a falsy one, the getter returns [undefined], and the
    state is the one the substitution left: no [getValue] was called.
    A [getValue] that is truthy and not a function is called all the
    same: the getter throws a TypeError. *)
Theorem ScriptValue_value_undefined (stack : nat) (me : ValueBase) (st : State) :
  class_of me = ScriptValue ->
  exists script st1,
    replaceWithValues (value P h stack) (otherValues h me)
      (JStr (toStringSafe (deploy_contracts.script (item me)))) st
    = (Ret (JStr script), st1)
    /\ (no_getValue P (JStr script) ->
        value P h (S stack) me st = (Ret undefined, st1))
    /\ (forall p m v,
          isEmptyString (JStr script) = false ->
          resolve_path P (JStr script) = Ret p ->
          FS_existsSync P p = true ->
          loadModule P p = Ret (Some m) ->
          getValue m = NotFunction v ->
          truthy v = true ->
          exists msg,
            value P h (S stack) me st = (Throw (TypeError msg), st1)).
Proof.
  intros Hc.
  destruct (ScriptValue_script_returns (value P h stack) me st)
    as (script & st1 & Hs).
  exists script, st1. split; [done|]. split.
  - intros Hno.
    cbn [value]. unfold value_of. rewrite Hc. unfold ScriptValue_value.
    rewrite (bind_Ret _ _ _ _ _ Hs). by apply ScriptValue_run_undefined.
  - intros p m v He Hp Hex Hm Hg Hv.
    cbn [value]. unfold value_of. rewrite Hc. unfold ScriptValue_value.
    rewrite (bind_Ret _ _ _ _ _ Hs).
    by apply (ScriptValue_run_not_a_function _ _ _ _ p m v).
Qed.

Lemma state_get_undefined (script : string) (st : State) :
  scriptValueStates st = None ->
  exists msg, state_get script st = (Throw (TypeError msg), st).
Proof. intros Hs. unfold state_get. rewrite Hs. by eexists. Qed.

Lemma state_set_undefined (script : string) (x : any) (st : State) :
  scriptValueStates st = None ->
  exists msg, state_set script x st = (Throw (TypeError msg), st).
Proof. intros Hs. unfold state_set. rewrite Hs. by eexists. Qed.

(** C9: the two stores start out [undefined]; as long as the per-script
    store is, reading and writing [args.state] throw a TypeError, and so
    does the getter of a Script Value whose [getValue] starts by reading
    or writing [args.state]; after [resetScriptStates] both stores are
    empty objects and [args.state] reads as [undefined]. *)
Theorem script_state_before_reset :
  (globalScriptValueState initial_State = None
   /\ scriptValueStates initial_State = None)
  /\ (forall script x st,
        scriptValueStates st = None ->
        (exists msg, state_get script st = (Throw (TypeError msg), st))
        /\ (exists msg, state_set script x st = (Throw (TypeError msg), st)))
  /\ (forall stack me st script st1 p f,
        class_of me = ScriptValue ->
        replaceWithValues (value P h stack) (otherValues h me)
          (JStr (toStringSafe (deploy_contracts.script (item me)))) st
        = (Ret script, st1) ->
        runs_getValue P script p f ->
        scriptValueStates st1 = None ->
        ((exists k, forall args, f args = (x ← args_state_get args; k args x))
         \/ (exists v k, forall args,
               f args = (_ ← args_state_set args (v args); k args))) ->
        exists msg st2,
          value P h (S stack) me st = (Throw (TypeError msg), st2))
  /\ (forall script st,
        exists st', resetScriptStates st = (Ret (), st')
                    /\ globalScriptValueState st' = Some ∅
                    /\ scriptValueStates st' = Some ∅
                    /\ state_get script st' = (Ret undefined, st')).
Proof.
  split; [done|]. split; [|split].
  - intros script x st Hs. split.
    + by apply state_get_undefined.
    + by apply state_set_undefined.
  - intros stack me st script st1 p f Hc Hs (He & Hp & Hex & m & Hm & Hg) Hnone Hf.
    cbn [value]. unfold value_of. rewrite Hc. unfold ScriptValue_value.
    rewrite (bind_Ret _ _ _ _ _ Hs). unfold ScriptValue_run.
    rewrite He. cbn [negb]. unfold mbind, M_bind, bind, lift.
    rewrite Hp, Hex, Hm, Hg. cbn [Export_truthy]. unfold log_getValue.
    destruct Hf as [(k & Hk) | (v & k & Hk)]; rewrite Hk.
    + unfold mbind, M_bind, bind. cbn [script_args args_state_get].
      unfold state_get. cbn [scriptValueStates]. rewrite Hnone. by eexists _, _.
    + unfold mbind, M_bind, bind. cbn [script_args args_state_set].
      unfold state_set. cbn [scriptValueStates]. rewrite Hnone. by eexists _, _.
  - intros script st. eexists. split; [done|]. split; [done|]. split; [done|].
    unfold state_get. cbn [scriptValueStates]. by rewrite lookup_empty.
Qed.

End ScriptValueFacts.

(** ** Replacing the first match of a token *)

Module JSReplaceFacts.
Import JSReplace StrFacts.


Lemma lower_dollar (c : ascii) :
  Ascii.eqb (Str.lower c) (Str.lower "$") = Ascii.eqb c "$".
Proof. destruct c as [[] [] [] [] [] [] [] []]; reflexivity. Qed.


Lemma search_cons (pat : string) (c : ascii) (s : string) :
  search pat (String c s)
  = match match_here pat (String c s) with
    | Some (m, r) => Some (EmptyString, m, r)
    | None =>
        match search pat s with
        | Some (b, m, r) => Some (String c b, m, r)
        | None => None
        end
    end.
Proof. done. Qed.

Lemma search_miss (pat : string) (c : ascii) (s : string) :
  match_here pat (String c s) = None ->
  search pat (String c s) = shift (String c "") (search pat s).
Proof.
  intros Hm. rewrite search_cons, Hm.
  by destruct (search pat s) as [[[b m] a]|].
Qed.

Lemma shift_shift (x y : string) (r : option (string * string * string)) :
  shift x (shift y r) = shift (x +:+ y) r.
Proof. destruct r as [[[b m] a]|]; [|done]. cbn [shift]. by rewrite append_assoc. Qed.

(** No token starts inside a text without a dollar sign. *)
Lemma search_skip (pat' pre rest : string) :
  Str.mem "$" pre = false ->
  search (String "$" pat') (pre +:+ rest)
  = shift pre (search (String "$" pat') rest).
Proof.
  induction pre as [|c pre IH]; intros Hpre.
  - cbn [String.append]. by destruct (search _ rest) as [[[b m] a]|].
  - cbn [Str.mem] in Hpre. apply orb_false_elim in Hpre as [Hc Hpre].
    cbn [String.append]. rewrite search_miss.
    + rewrite (IH Hpre), shift_shift. done.
    + cbn [match_here]. rewrite lower_dollar, Ascii.eqb_sym. by rewrite Hc.
Qed.




Lemma replace_none (pat' t s : string) :
  Str.mem "$" s = false -> replace (String "$" pat') t s = s.
Proof.
  intros Hs. unfold replace.
  rewrite <- (append_nil_r s), (search_skip _ _ _ Hs).
  by destruct pat'.
Qed.

Lemma opens_inv (pat : string) :
  opens pat = true -> exists pat', pat = String "$" pat'.
Proof.
  destruct pat as [|c pat']; [done|]. cbn [opens].
  intros ->%Ascii.eqb_eq. by exists pat'.
Qed.


Lemma replace_nowhere (pat t s : string) :
  opens pat = true -> Str.mem "$" s = false -> replace pat t s = s.
Proof. intros [pat' ->]%opens_inv. apply replace_none. Qed.






End JSReplaceFacts.

(** ** [encodeURIComponent] *)

Module URIFacts.



End URIFacts.

(** ** The HTTP plugin *)

Section PluginFacts.
Context `{Helpers}.
Variable URL_parse : string -> outcome http.Url.
Variable parseInt : string -> any.
Import JSReplaceFacts StrFacts.






(** What the callback of [HTTP.request] reports for every status. *)
Lemma on_response_cases (statusCode : Z) (statusMessage : string) :
  (199 < statusCode < 300 -> http.on_response statusCode statusMessage = None)
  /\ (~ 199 < statusCode < 300 ->
      http.on_response statusCode statusMessage
      = Some (Error (http.status_message "No success" statusCode statusMessage))).
Proof.
  unfold http.on_response. split; intros Hs.
  - replace (199 <? statusCode) with true by (symmetry; apply Z.ltb_lt; lia).
    replace (statusCode <? 300) with true by (symmetry; apply Z.ltb_lt; lia).
    cbn [andb negb].
    replace (399 <? statusCode) with false by (symmetry; apply Z.ltb_ge; lia).
    replace (499 <? statusCode) with false by (symmetry; apply Z.ltb_ge; lia).
    replace (599 <? statusCode) with false by (symmetry; apply Z.ltb_ge; lia).
    done.
  - destruct (199 <? statusCode) eqn:H1; destruct (statusCode <? 300) eqn:H2;
      cbn [andb negb]; try done.
    apply Z.ltb_lt in H1, H2. lia.
Qed.

(** C1: a response with status 404 is reported as "No success", not as a
    client error: the first test of the callback takes every status
    outside 200-299, so the three tests after it never fire. *)
Theorem on_response_404 :
  http.on_response 404 "Not Found"
  = Some (Error "No success: [404] 'Not Found'")
  /\ http.on_response 404 "Not Found"
     ≠ Some (Error (http.status_message "Client error" 404 "Not Found")).
Proof. split; [reflexivity | vm_compute; discriminate]. Qed.

End PluginFacts.

(** ** More on placeholder substitution *)

Section MoreSubstitution.
Context `{Helpers}.
Variable value : ValueBase -> M any.
Import Placeholder StrFacts PlaceholderFacts.

(** X1: substituting with the Values [vs1 ++ vs2] is substituting with
    [vs1] and then, in the string and the state this gives, with [vs2]. *)
Theorem replaceWithValues_app (vs1 vs2 : list ValueBase) (s : string)
    (st : State) :
  replaceWithValues value (vs1 ++ vs2) (JStr s) st
  = (r ← replaceWithValues value vs1 (JStr s);
     replaceWithValues value vs2 r) st.
Proof.
  destruct (forEach_pass_returns value vs1 s st) as (str1 & st1 & H1).
  rewrite (bind_Ret _ _ st st1 (JStr str1)).
  - rewrite !replaceWithValues_JStr. unfold mbind, M_bind, bind.
    by rewrite (forEach_pass_app value _ _ _ _ _ _ H1).
  - rewrite replaceWithValues_JStr. by rewrite (bind_Ret _ _ _ _ _ H1).
Qed.

Lemma replace_counts (v : ValueBase) (vn : string) (x : any)
    (f : State -> State) (ps : list piece) (st : State) :
  (forall st0, value v st0 = (Ret x, f st0)) ->
  replace (callback value v vn) ps st
  = (Ret (substitute vn (toStringSafe x) ps), Nat.iter (matching vn ps) f st).
Proof.
  intros Hv. revert st. induction ps as [|[c|n] ps IH]; intros st.
  - done.
  - cbn [replace substitute matching]. by rewrite (bind_Ret _ _ _ _ _ (IH st)).
  - cbn [replace substitute matching].
    destruct (String.eqb (normalizeString (JStr n)) vn) eqn:Hn.
    + apply String.eqb_eq in Hn.
      rewrite (bind_Ret _ _ _ _ _ (callback_hit value v vn (token n) n st (f st) x Hn (Hv st))).
      rewrite (bind_Ret _ _ _ _ _ (IH (f st))).
      cbn [Nat.add]. by rewrite Nat.iter_succ_r.
    + apply String.eqb_neq in Hn.
      rewrite (bind_Ret _ _ _ _ _ (callback_other value v vn (token n) n st Hn)).
      by rewrite (bind_Ret _ _ _ _ _ (IH st)).
Qed.

(** X2: nothing is cached: in the turn of a Value whose accessor returns
    [x] and takes the state from [st] to [f st], the accessor runs once
    for every match that has the name of the Value, and each of those
    matches, no other, becomes the text of [x]. *)
Theorem pass_runs_accessor_per_match (v : ValueBase) (x : any)
    (f : State -> State) (str : string) (st : State) :
  (forall st0, value v st0 = (Ret x, f st0)) ->
  let vn := normalizeString (name v) in
  pass value v str st
  = (Ret (substitute vn (toStringSafe x) (pieces str)),
     Nat.iter (matching vn (pieces str)) f st).
Proof. intros Hv vn. unfold pass. by apply replace_counts. Qed.

End MoreSubstitution.

(** ** The map of the sibling Values: [$others] and [args.others] *)

Section OthersFacts.
Context `{Helpers}.
Variable value : ValueBase -> M any.

Lemma defineProperty_keys {A} (o : list (string * A)) (p : string) (g : A) :
  map fst (defineProperty o p g)
  = if bool_decide (p ∈ map fst o) then map fst o else map fst o ++ [p].
Proof.
  induction o as [|[q g'] o IH]; [done|].
  cbn [defineProperty map fst]. destruct (String.eqb q p) eqn:Hq.
  - apply String.eqb_eq in Hq as ->. cbn [map fst].
    rewrite bool_decide_eq_true_2; [done | apply list_elem_of_here].
  - cbn [map fst]. rewrite IH. apply String.eqb_neq in Hq.
    destruct (bool_decide (p ∈ map fst o)) eqn:Hin.
    + apply bool_decide_eq_true_1 in Hin.
      rewrite bool_decide_eq_true_2; [done | by apply list_elem_of_further].
    + apply bool_decide_eq_false_1 in Hin.
      rewrite bool_decide_eq_false_2; [done|].
      intros [?|?]%elem_of_cons; [by subst | done].
Qed.

Lemma defineProperty_getter {A} (o : list (string * A)) (p q : string) (g : A) :
  getter_of (defineProperty o p g) q
  = if String.eqb p q then Some g else getter_of o q.
Proof.
  induction o as [|[r g'] o IH].
  - cbn [defineProperty getter_of]. done.
  - cbn [defineProperty]. destruct (String.eqb r p) eqn:Hr.
    + apply String.eqb_eq in Hr as ->. cbn [getter_of].
      by destruct (String.eqb p q).
    + cbn [getter_of]. rewrite IH. destruct (String.eqb r q) eqn:Hrq; [|done].
      apply String.eqb_eq in Hrq as ->. by rewrite String.eqb_sym, Hr.
Qed.

Lemma define_from_keys (o : list (string * M any)) (ovs : list ValueBase) :
  NoDup (map fst o) -> "" ∉ map fst o ->
  NoDup (map fst (define_from value o ovs)) /\ "" ∉ map fst (define_from value o ovs).
Proof.
  revert o. induction ovs as [|ov ovs IH]; intros o Hnd Hne; [done|].
  cbn [define_from fold_left].
  destruct (String.eqb "" (toStringSafe (name ov))) eqn:Hp; [by apply IH|].
  apply IH.
  - rewrite defineProperty_keys. case_bool_decide as Hin; [done|].
    apply NoDup_app. split; [done|]. split; [|apply NoDup_singleton].
    intros x Hx ->%list_elem_of_singleton. done.
  - rewrite defineProperty_keys. case_bool_decide as Hin; [done|].
    intros [?|Hin']%elem_of_app; [done|].
    apply list_elem_of_singleton in Hin'. apply String.eqb_neq in Hp. done.
Qed.

Lemma define_from_getter (o : list (string * M any)) (ovs : list ValueBase)
    (p : string) :
  (forall ov, ov ∈ ovs -> toStringSafe (name ov) ≠ p) ->
  getter_of (define_from value o ovs) p = getter_of o p.
Proof.
  revert o. induction ovs as [|ov ovs IH]; intros o Hne; [done|].
  cbn [define_from fold_left].
  assert (Hrest : forall ov', ov' ∈ ovs -> toStringSafe (name ov') ≠ p).
  { intros ov' Hin. by apply Hne, list_elem_of_further. }
  destruct (String.eqb "" (toStringSafe (name ov))); [by apply IH|].
  change (fold_left _ ovs ?o') with (define_from value o' ovs).
  rewrite (IH _ Hrest), defineProperty_getter.
  rewrite (StrFacts.eqb_false (toStringSafe (name ov)) p); [done|].
  apply Hne, list_elem_of_here.
Qed.

(** X3: the keys of the map of the sibling Values are the names of the
    siblings that are not empty, each once; when several siblings have
    the same name, the key gets the getter of the last of them. *)
Theorem define_others_last_wins (ovs : list ValueBase) :
  NoDup (map fst (define_others value ovs))
  /\ ("" ∉ map fst (define_others value ovs))
  /\ (forall p, (forall ov, ov ∈ ovs -> toStringSafe (name ov) ≠ p) ->
                getter_of (define_others value ovs) p = None)
  /\ (forall ovs1 ov ovs2,
        ovs = ovs1 ++ ov :: ovs2 ->
        toStringSafe (name ov) ≠ "" ->
        (forall ov', ov' ∈ ovs2 ->
                     toStringSafe (name ov') ≠ toStringSafe (name ov)) ->
        getter_of (define_others value ovs) (toStringSafe (name ov))
        = Some (value ov)).
Proof.
  change (define_others value ovs) with (define_from value [] ovs).
  destruct (define_from_keys [] ovs) as [Hnd Hne];
    [apply NoDup_nil_2 | by intros ?%elem_of_nil |].
  split; [done|]. split; [done|]. split.
  - intros p Hp. by rewrite define_from_getter.
  - intros ovs1 ov ovs2 -> Hname Hlast.
    unfold define_from. rewrite fold_left_app. cbn [fold_left].
    rewrite (StrFacts.eqb_false "" (toStringSafe (name ov))); [|done].
    change (fold_left _ ovs2 ?o') with (define_from value o' ovs2).
    rewrite (define_from_getter _ _ _ Hlast), defineProperty_getter.
    by rewrite String.eqb_refl.
Qed.

End OthersFacts.

(** ** More on [toValueObjects] *)

Lemma elem_of_map {A B} (f : A -> B) (l : list A) (y : B) :
  y ∈ map f l <-> exists x, y = f x /\ x ∈ l.
Proof.
  rewrite list_elem_of_In, in_map_iff. split.
  - intros (x & <- & Hx). exists x. by rewrite list_elem_of_In.
  - intros (x & -> & Hx). exists x. by rewrite <- list_elem_of_In.
Qed.

Lemma elem_of_omap_id {A} (l : list (option A)) (x : A) :
  x ∈ omap (fun o => o) l <-> Some x ∈ l.
Proof.
  induction l as [|[a|] l IH]; cbn.
  - by rewrite !elem_of_nil.
  - rewrite !elem_of_cons, IH. split; intros [?|?]; auto; left; congruence.
  - rewrite elem_of_cons, IH. split; [auto|]. by intros [?|?].
Qed.

Section MoreConstruction.
Context `{Helpers}.
Variable cfg : option deploy_contracts.DeployConfiguration.

Lemma pushed_items (result : loc)
    (items : list deploy_contracts.ValueWithName) (idx : nat) :
  map item (pushed cfg result items idx)
  = filter (fun i => Is_true (recognized cfg i)) items.
Proof.
  revert idx. induction items as [|i rest IH]; intros idx; [done|].
  cbn [pushed].
  destruct (construct i cfg) as [newValue|] eqn:Hi.
  - rewrite filter_cons_True by (cbn beta; unfold recognized; by rewrite Hi).
    cbn [map]. rewrite IH. f_equal.
    unfold wire, item. cbn [set_otherValueProvider set_id _ITEM].
    by apply construct_item with (cfg := cfg).
  - rewrite filter_cons_False
      by (cbn beta; unfold recognized; rewrite Hi; exact (fun f => f)).
    apply IH.
Qed.

Lemma pushed_length (result : loc)
    (items : list deploy_contracts.ValueWithName) (idx : nat) :
  length (pushed cfg result items idx) = count_recognized cfg items.
Proof.
  revert idx. induction items as [|i rest IH]; intros idx; [done|].
  cbn [pushed count_recognized]. unfold recognized.
  destruct (construct i cfg); cbn [length]; by rewrite IH.
Qed.

Lemma count_recognized_le (items : list deploy_contracts.ValueWithName) :
  (count_recognized cfg items <= length items)%nat.
Proof.
  induction items as [|i rest IH]; [done|].
  cbn [count_recognized length]. destruct (recognized cfg i); lia.
Qed.

Lemma omap_id_length {A} (l : list (option A)) :
  (length (omap (fun x => x) l) <= length l)%nat.
Proof. induction l as [|[a|] l IH]; cbn; lia. Qed.

Lemma toValueObjects_keeps_order_items
    (items : list (option deploy_contracts.ValueWithName)) (h : Heap) :
  map item (toValueObjects_array items cfg h)
  = filter (fun i => Is_true (recognized cfg i)) (omap (fun i => i) items).
Proof.
  rewrite (toValueObjects_array_pushed cfg items h). apply pushed_items.
Qed.

(** X4: the produced array holds, in the order of the input, one Value
    for each definition that is not falsy and has a known type tag, and
    each Value carries its definition; nothing else is produced. *)
Theorem toValueObjects_keeps_order
    (items : list (option deploy_contracts.ValueWithName)) (h : Heap) :
  map item (toValueObjects_array items cfg h)
  = filter (fun i => Is_true (recognized cfg i)) (omap (fun i => i) items)
  /\ length (toValueObjects_array items cfg h)
     = count_recognized cfg (omap (fun i => i) items)
  /\ (length (toValueObjects_array items cfg h) <= length items)%nat.
Proof.
  rewrite (toValueObjects_array_pushed cfg items h).
  rewrite pushed_items, pushed_length. split; [done|]. split; [done|].
  etrans; [apply count_recognized_le | apply omap_id_length].
Qed.

(** The class that goes with a normalized type tag. *)
Lemma construct_class (i : deploy_contracts.ValueWithName) (newValue : ValueBase) :
  construct i cfg = Some newValue ->
  let t := normalizeString (deploy_contracts.type i) in
  match class_of newValue with
  | StaticValue => t = "" \/ t = "static"
  | CodeValue => t = "code"
  | EnvValue => t = "env" \/ t = "environment"
  | FileValue => t = "file"
  | ScriptValue => t = "script"
  end
  /\ _config newValue = match class_of newValue with
                        | ScriptValue => cfg
                        | _ => None
                        end.
Proof.
  unfold construct. cbn zeta.
  set (t := normalizeString (deploy_contracts.type i)).
  destruct (String.eqb t "" || String.eqb t "static") eqn:H1.
  { intros [= <-]. split; [|done]. cbn [new class_of].
    apply orb_true_iff in H1 as [?%String.eqb_eq|?%String.eqb_eq]; auto. }
  destruct (String.eqb t "code") eqn:H2.
  { intros [= <-]. split; [|done]. by apply String.eqb_eq in H2. }
  destruct (String.eqb t "env" || String.eqb t "environment") eqn:H3.
  { intros [= <-]. split; [|done]. cbn [new class_of].
    apply orb_true_iff in H3 as [?%String.eqb_eq|?%String.eqb_eq]; auto. }
  destruct (String.eqb t "file") eqn:H4.
  { intros [= <-]. split; [|done]. by apply String.eqb_eq in H4. }
  destruct (String.eqb t "script") eqn:H5; [|done].
  intros [= <-]. split; [|done]. by apply String.eqb_eq in H5.
Qed.

(** X5: the class of a produced Value is the one its normalized type tag
    names: no tag or [static], [code], [env] or [environment], [file],
    [script]; the configuration is kept by the Script Values alone. *)
Theorem toValueObjects_classes
    (items : list (option deploy_contracts.ValueWithName)) (h : Heap)
    (v : ValueBase) :
  v ∈ toValueObjects_array items cfg h ->
  let t := normalizeString (deploy_contracts.type (item v)) in
  match class_of v with
  | StaticValue => t = "" \/ t = "static"
  | CodeValue => t = "code"
  | EnvValue => t = "env" \/ t = "environment"
  | FileValue => t = "file"
  | ScriptValue => t = "script"
  end
  /\ _config v = match class_of v with
                 | ScriptValue => cfg
                 | _ => None
                 end.
Proof.
  rewrite (toValueObjects_array_pushed cfg items h).
  intros [k Hk]%list_elem_of_lookup.
  destruct (pushed_lookup cfg _ _ _ _ _ Hk) as (j & i & nv & _ & Hc & -> & _).
  pose proof (construct_class i nv Hc) as Hclass.
  pose proof (construct_item cfg i nv Hc) as Hitem.
  unfold item, wire in *. cbn [set_otherValueProvider set_id _ITEM class_of _config].
  by rewrite Hitem.
Qed.

Lemma push_other (result l : loc) (x : ValueBase) (h : Heap) :
  l ≠ result -> push result x h !! l = h !! l.
Proof. intros Hne. unfold push. by rewrite lookup_insert_ne. Qed.

Lemma push_same (result : loc) (x : ValueBase) (h : Heap) (arr : list ValueBase) :
  h !! result = Some arr -> push result x h !! result = Some (arr ++ [x]).
Proof. intros Harr. unfold push. by rewrite Harr, lookup_insert_eq. Qed.

Lemma forEach_item_other (result l : loc)
    (items : list deploy_contracts.ValueWithName) (idx : nat) (h : Heap) :
  l ≠ result -> forEach_item cfg result items idx h !! l = h !! l.
Proof.
  intros Hne. revert idx h. induction items as [|i rest IH]; intros idx h; [done|].
  cbn [forEach_item]. rewrite IH. unfold forEach_body.
  destruct (construct i cfg); [by apply push_other | done].
Qed.

Lemma toValueObjects_other
    (items : list (option deploy_contracts.ValueWithName)) (h : Heap) (l : loc) :
  l ≠ (toValueObjects items cfg h).1 ->
  toValueObjects_heap items cfg h !! l = h !! l.
Proof.
  unfold toValueObjects_heap, toValueObjects. cbn [fst snd]. intros Hne.
  rewrite forEach_item_other by done. by rewrite lookup_insert_ne.
Qed.

Lemma toValueObjects_fresh
    (items : list (option deploy_contracts.ValueWithName)) (h : Heap) :
  h !! (toValueObjects items cfg h).1 = None.
Proof.
  unfold toValueObjects. cbn [fst].
  apply not_elem_of_dom, is_fresh.
Qed.

(** X6: the array of a call is a new one: no array that was in the heap
    changes, so a Value of an earlier call has the same [otherValues]
    after the call as before. *)
Theorem toValueObjects_leaves_other_arrays
    (items : list (option deploy_contracts.ValueWithName)) (h : Heap) :
  h !! (toValueObjects items cfg h).1 = None
  /\ (forall l, is_Some (h !! l) ->
                toValueObjects_heap items cfg h !! l = h !! l)
  /\ (forall v l,
        otherValueProvider v = Some (SiblingFilter l) ->
        is_Some (h !! l) ->
        otherValues (toValueObjects_heap items cfg h) v = otherValues h v).
Proof.
  pose proof (toValueObjects_fresh items h) as Hfresh.
  assert (Hkeep : forall l, is_Some (h !! l) ->
            toValueObjects_heap items cfg h !! l = h !! l).
  { intros l [arr Harr]. apply toValueObjects_other.
    intros ->. by rewrite Hfresh in Harr. }
  split; [done|]. split; [done|].
  intros v l Hp Hl. unfold otherValues. rewrite Hp.
  cbn [call_provider]. by rewrite (Hkeep l Hl).
Qed.

End MoreConstruction.

(** ** [getValues] *)

Section GetValuesFacts.
Context `{Helpers}.
Variable filterPlatformItems : list ConfiguredValue -> list ConfiguredValue.
Variable me : Deployer.
Variable h : Heap.

Local Abbreviation defs :=
  (map (fun v => Some (definition v)) (applicable filterPlatformItems me)).
Local Abbreviation C := (configured filterPlatformItems me h).
Local Abbreviation builtins :=
  [builtin_cwd; builtin_homeDir; builtin_workspaceRoot].

Lemma getValues_loc :
  (getValues filterPlatformItems me h).1
  = (toValueObjects defs (Some (config me)) h).1.
Proof. done. Qed.

Lemma getValues_heap_array :
  getValues_heap filterPlatformItems me h
    !! (getValues filterPlatformItems me h).1
  = Some (C ++ builtins).
Proof.
  pose proof (toValueObjects_heap_array (Some (config me)) defs h) as Harr.
  unfold getValues_heap, getValues, configured.
  unfold toValueObjects_heap in Harr.
  destruct (toValueObjects defs (Some (config me)) h) as [objs h1] eqn:Ht.
  cbn [fst snd] in *.
  rewrite (push_same _ _ _ ((toValueObjects_array defs (Some (config me)) h
                               ++ [builtin_cwd]) ++ [builtin_homeDir])).
  - by rewrite <- !app_assoc.
  - apply push_same. by apply push_same.
Qed.

(** X7: whatever the configuration, the array [getValues] returns ends
    with the three built-in Code Values [cwd], [homeDir] and
    [workspaceRoot], in this order, after the Values made of the
    configured definitions. *)
Theorem getValues_appends_builtins :
  getValues_array filterPlatformItems me h = C ++ builtins
  /\ map name builtins = [JStr "cwd"; JStr "homeDir"; JStr "workspaceRoot"]
  /\ map class_of builtins = [CodeValue; CodeValue; CodeValue].
Proof.
  split; [|done]. unfold getValues_array. by rewrite getValues_heap_array.
Qed.

Lemma getValues_otherValues (k : nat) (v : ValueBase) :
  C !! k = Some v ->
  otherValues (getValues_heap filterPlatformItems me h) v
  = take k C ++ drop (S k) C ++ builtins.
Proof.
  intros Hv.
  destruct (produced_otherValues (Some (config me)) defs h k v Hv)
    as (Hp & Hfilter & Hrest).
  rewrite Hfilter in Hrest. clear Hfilter.
  unfold otherValues. rewrite Hp. cbn [app call_provider].
  rewrite <- getValues_loc, getValues_heap_array.
  change (default [] (Some ?l)) with l.
  rewrite filter_app. fold C in Hrest. rewrite Hrest, <- app_assoc.
  do 2 f_equal.
  pose proof Hv as Hv'. unfold configured in Hv'.
  rewrite (toValueObjects_array_pushed (Some (config me)) defs h) in Hv'.
  destruct (pushed_lookup _ _ _ _ _ _ Hv') as (j & i & nv & _ & _ & -> & _).
  done.
Qed.

(** X8: the three built-in Values are pushed to the array that the
    providers of the configured Values read, so every configured Value
    has them among its [otherValues], after its configured siblings; a
    built-in Value has no provider and no [otherValues] at all. *)
Theorem getValues_siblings (k : nat) (v : ValueBase) :
  C !! k = Some v ->
  otherValues (getValues_heap filterPlatformItems me h) v
  = take k C ++ drop (S k) C ++ builtins
  /\ (forall b, b ∈ builtins ->
                otherValues (getValues_heap filterPlatformItems me h) b = []).
Proof.
  intros Hv. split; [by apply getValues_otherValues|].
  intros b Hb. repeat (apply elem_of_cons in Hb as [->|Hb]; [done|]).
  by apply elem_of_nil in Hb.
Qed.

(** X20: in the map [$others] (and [others]) of a configured Value that
    [getValues] returns, the keys [cwd], [homeDir] and [workspaceRoot]
    are the getters of the three built-in Values, whatever the configured
    Values are called: the built-in Values are defined last. *)
Theorem getValues_others_builtins (value : ValueBase -> M any)
    (k : nat) (v : ValueBase) :
  C !! k = Some v ->
  let others :=
    define_others value
      (otherValues (getValues_heap filterPlatformItems me h) v) in
  getter_of others "cwd" = Some (value builtin_cwd)
  /\ getter_of others "homeDir" = Some (value builtin_homeDir)
  /\ getter_of others "workspaceRoot" = Some (value builtin_workspaceRoot).
Proof.
  intros Hv others. unfold others.
  rewrite (getValues_otherValues k v Hv), app_assoc.
  unfold define_others. rewrite fold_left_app.
  set (o := fold_left _ (take k C ++ drop (S k) C) []).
  cbn [fold_left name class_of builtin_cwd builtin_homeDir
       builtin_workspaceRoot new item _ITEM code_item deploy_contracts.name].
  rewrite !toStringSafe_JStr.
  cbn [String.eqb]. rewrite !defineProperty_getter.
  cbn [String.eqb Ascii.eqb Bool.eqb]. done.
Qed.

Lemma indexOf_found_elem (myName : any) (hosts : list string) :
  indexOf_found myName hosts = true ->
  exists s, s ∈ hosts /\ myName = JStr s.
Proof.
  unfold indexOf_found. intros (s & Hin & Hs)%existsb_exists.
  exists s. split; [by apply list_elem_of_In|].
  apply negb_true_iff in Hs. destruct myName; try done.
  cbn [strict_neq] in Hs. apply negb_false_iff, String.eqb_eq in Hs.
  by subst.
Qed.

(** X9: when the platform filter only drops definitions, every configured
    Value comes from an entry of [config.values] that either names no
    host in [isFor] (once the names are normalized and the empty ones
    dropped) or names the host of the deployer, letter for letter. *)
Theorem getValues_respects_isFor (v : ValueBase) :
  (forall l x, x ∈ filterPlatformItems l -> x ∈ l) ->
  v ∈ C ->
  exists entry,
    Some entry ∈ config_values me
    /\ item v = definition entry
    /\ (validHosts entry = []
        \/ exists s, s ∈ validHosts entry /\ deployer_name me = JStr s).
Proof.
  intros Hsub Hv.
  pose proof (toValueObjects_keeps_order_items (Some (config me)) defs h) as Hitems.
  assert (Hin : item v ∈ map item C) by (apply elem_of_map; by exists v).
  unfold configured in Hin. rewrite Hitems in Hin.
  apply list_elem_of_filter in Hin as [_ Hin].
  apply elem_of_omap_id, elem_of_map in Hin as (entry & [= Hitem] & Hentry).
  exists entry. unfold applicable in Hentry.
  apply Hsub, list_elem_of_filter in Hentry as [Hfor Hentry].
  apply elem_of_omap_id in Hentry.
  split; [done|]. split; [done|].
  unfold is_for in Hfor. apply Is_true_eq_true in Hfor.
  destruct (validHosts entry) as [|s hosts] eqn:Hh; [by left|]. right.
  cbn [length] in Hfor.
  by apply indexOf_found_elem.
Qed.

End GetValuesFacts.

(** ** More on the state of the scripts and on [FileValue] *)

Section MoreScriptState.
Context `{Helpers}.
Variable P : Platform.
Variable h : Heap.
Variable value : ValueBase -> M any.

(** X10: once the stores exist, what one Script Value writes to
    [args.state] is what any Script Value over the same script file reads
    from it; the state of another script file and the global store stay
    as they were; [resetScriptStates] makes the state read as
    [undefined] again. *)
Theorem args_state_round_trip (me1 me2 : ValueBase) (script script' : string)
    (x : any) (st : State) :
  is_Some (scriptValueStates st) ->
  exists st',
    args_state_set (script_args P h value me1 script) x st = (Ret (), st')
    /\ args_state_get (script_args P h value me2 script) st' = (Ret x, st')
    /\ (script' ≠ script ->
        exists y,
          args_state_get (script_args P h value me2 script') st = (Ret y, st)
          /\ args_state_get (script_args P h value me2 script') st' = (Ret y, st'))
    /\ globalScriptValueState st' = globalScriptValueState st
    /\ (exists st'',
          resetScriptStates st' = (Ret (), st'')
          /\ args_state_get (script_args P h value me2 script) st''
             = (Ret undefined, st'')).
Proof.
  intros [states Hs]. cbn [script_args args_state_set args_state_get].
  unfold state_set, state_get. rewrite Hs. eexists. split; [done|].
  cbn [scriptValueStates globalScriptValueState].
  split; [by rewrite lookup_insert_eq|]. split; [|split; [done|]].
  - intros Hne. rewrite lookup_insert_ne by done. by eexists.
  - unfold resetScriptStates. eexists. split; [done|].
    cbn [scriptValueStates]. by rewrite lookup_empty.
Qed.

(** X11: a File Value whose file cannot be read throws the error of the
    read; with [asBinary] it returns the bytes as they are, whatever the
    encoding and [usePlaceholders] say; otherwise it decodes them, with
    [utf8] when no encoding is configured, and replaces placeholders in
    the text only when [usePlaceholders] is set. *)
Theorem FileValue_value_cases (me : ValueBase) (st st1 : State) (p : string) :
  reads_file P h value me st st1 p ->
  (forall e, FS_readFileSync P p = Throw e ->
             FileValue_value P h value me st = (Throw e, st1))
  /\ (forall content,
        FS_readFileSync P p = Ret content ->
        toBooleanSafe (deploy_contracts.asBinary (item me)) None = true ->
        FileValue_value P h value me st = (Ret (JBuffer content), st1))
  /\ (forall content str,
        FS_readFileSync P p = Ret content ->
        toBooleanSafe (deploy_contracts.asBinary (item me)) None = false ->
        let enc := normalizeString (deploy_contracts.encoding (item me)) in
        Buffer_toString P content (if String.eqb "" enc then "utf8" else enc)
        = Ret str ->
        FileValue_value P h value me st
        = (if toBooleanSafe (deploy_contracts.usePlaceholders (item me)) None
           then replaceWithValues value (otherValues h me) (JStr str) st1
           else (Ret (JStr str), st1))).
Proof.
  intros (file & Hfile & Hp). unfold FileValue_value.
  rewrite (bind_Ret _ _ _ _ _ Hfile). unfold mbind, M_bind, bind, lift.
  rewrite Hp. split; [|split].
  - intros e He. by rewrite He.
  - intros content Hc Hb. rewrite Hc. cbn [truthy]. by rewrite Hb.
  - intros content str Hc Hb Hs. rewrite Hc. cbn [truthy]. rewrite Hb.
    cbn zeta in Hs. rewrite Hs.
    by destruct (toBooleanSafe (deploy_contracts.usePlaceholders (item me)) None).
Qed.

End MoreScriptState.

(** ** Trimming and lower case *)

Module TrimFacts.

Lemma trimStart_idem (s : string) : Str.trimStart (Str.trimStart s) = Str.trimStart s.
Proof.
  induction s as [|c s IH]; [done|]. cbn [Str.trimStart].
  destruct (Str.is_space c) eqn:Hc; [done|]. cbn [Str.trimStart]. by rewrite Hc.
Qed.

Lemma trimEnd_idem (s : string) : Str.trimEnd (Str.trimEnd s) = Str.trimEnd s.
Proof.
  induction s as [|c s IH]; [done|]. cbn [Str.trimEnd].
  destruct (Str.trimEnd s) as [|d r] eqn:Hs.
  - destruct (Str.is_space c) eqn:Hc; [done|]. cbn [Str.trimEnd]. by rewrite Hc.
  - cbn [Str.trimEnd]. cbn [Str.trimEnd] in IH. by rewrite IH.
Qed.

Lemma trimStart_trimEnd (s : string) :
  Str.trimStart s = s -> Str.trimStart (Str.trimEnd s) = Str.trimEnd s.
Proof.
  destruct s as [|c s]; [done|]. cbn [Str.trimStart Str.trimEnd].
  destruct (Str.is_space c) eqn:Hc.
  - intros Hs. exfalso.
    assert (Hlen : (String.length (Str.trimStart s) <= String.length s)%nat).
    { clear. induction s as [|d s IH]; [done|]. cbn [Str.trimStart].
      destruct (Str.is_space d); cbn [String.length]; lia. }
    rewrite Hs in Hlen. cbn [String.length] in Hlen. lia.
  - intros _. destruct (Str.trimEnd s); cbn [Str.trimStart]; by rewrite Hc.
Qed.

Lemma trim_idem (s : string) : Str.trim (Str.trim s) = Str.trim s.
Proof.
  unfold Str.trim.
  rewrite (trimStart_trimEnd (Str.trimStart s)) by apply trimStart_idem.
  apply trimEnd_idem.
Qed.

Lemma is_space_lower (c : ascii) : Str.is_space (Str.lower c) = Str.is_space c.
Proof. destruct c as [[] [] [] [] [] [] [] []]; reflexivity. Qed.

Lemma lower_lower (c : ascii) : Str.lower (Str.lower c) = Str.lower c.
Proof. destruct c as [[] [] [] [] [] [] [] []]; reflexivity. Qed.

Lemma toLowerCase_idem (s : string) :
  Str.toLowerCase (Str.toLowerCase s) = Str.toLowerCase s.
Proof.
  induction s as [|c s IH]; [done|].
  cbn [Str.toLowerCase]. by rewrite lower_lower, IH.
Qed.

Lemma trimStart_toLowerCase (s : string) :
  Str.trimStart (Str.toLowerCase s) = Str.toLowerCase (Str.trimStart s).
Proof.
  induction s as [|c s IH]; [done|].
  cbn [Str.toLowerCase Str.trimStart]. rewrite is_space_lower.
  by destruct (Str.is_space c).
Qed.

Lemma trimEnd_toLowerCase (s : string) :
  Str.trimEnd (Str.toLowerCase s) = Str.toLowerCase (Str.trimEnd s).
Proof.
  induction s as [|c s IH]; [done|].
  cbn [Str.toLowerCase Str.trimEnd]. rewrite IH, is_space_lower.
  destruct (Str.trimEnd s); cbn [Str.toLowerCase]; [|done].
  by destruct (Str.is_space c).
Qed.

Lemma trim_toLowerCase (s : string) :
  Str.trim (Str.toLowerCase s) = Str.toLowerCase (Str.trim s).
Proof. unfold Str.trim. by rewrite trimStart_toLowerCase, trimEnd_toLowerCase. Qed.

End TrimFacts.

(** ** More on the HTTP plugin *)

Section MorePluginFacts.
Context `{Helpers}.
Import StrFacts JSReplaceFacts.

(** X12: the callback of [HTTP.request] completes without an error for
    the statuses 200 to 299, and for those only. *)
Theorem on_response_success_iff (statusCode : Z) (statusMessage : string) :
  http.on_response statusCode statusMessage = None <-> 199 < statusCode < 300.
Proof.
  destruct (on_response_cases statusCode statusMessage) as [Hin Hout].
  split; [|done]. intros Hnone.
  destruct (decide (199 < statusCode < 300)) as [|Hno]; [done|].
  by rewrite (Hout Hno) in Hnone.
Qed.

(** X13: a text without a dollar sign goes through [parsePlaceHolders]
    unchanged, whatever the transformer and the file. *)
Theorem parsePlaceHolders_plain (u : http.Upload) (s : string)
    (transformer : option (any -> string)) :
  Str.mem "$" s = false ->
  http.parsePlaceHolders u (JStr s) transformer = s.
Proof.
  intros Hs. unfold http.parsePlaceHolders.
  rewrite !toStringSafe_JStr.
  repeat match goal with
    | |- context [JSReplace.replace ?pat ?t s] =>
        rewrite (replace_nowhere pat t s eq_refl Hs)
    end.
  done.
Qed.

Lemma set_header_getter (hs : list (string * any)) (p q : string) (x : any) :
  getter_of (http.set_header hs p x) q
  = if String.eqb p q then Some x else getter_of hs q.
Proof.
  induction hs as [|[r y] hs IH].
  - done.
  - cbn [http.set_header]. destruct (String.eqb r p) eqn:Hr.
    + apply String.eqb_eq in Hr as ->. cbn [getter_of].
      by destruct (String.eqb p q).
    + cbn [getter_of]. rewrite IH. destruct (String.eqb r q) eqn:Hrq; [|done].
      apply String.eqb_eq in Hrq as ->. by rewrite String.eqb_sym, Hr.
Qed.

Lemma set_header_keys (hs : list (string * any)) (p : string) (x : any) :
  map fst (http.set_header hs p x)
  = if bool_decide (p ∈ map fst hs) then map fst hs else map fst hs ++ [p].
Proof.
  induction hs as [|[q y] hs IH]; [done|].
  cbn [http.set_header map fst]. destruct (String.eqb q p) eqn:Hq.
  - apply String.eqb_eq in Hq as ->. cbn [map fst].
    rewrite bool_decide_eq_true_2; [done | apply list_elem_of_here].
  - cbn [map fst]. rewrite IH. apply String.eqb_neq in Hq.
    destruct (bool_decide (p ∈ map fst hs)) eqn:Hin.
    + apply bool_decide_eq_true_1 in Hin.
      rewrite bool_decide_eq_true_2; [done | by apply list_elem_of_further].
    + apply bool_decide_eq_false_1 in Hin.
      rewrite bool_decide_eq_false_2; [done|].
      intros [?|?]%elem_of_cons; [by subst | done].
Qed.

Lemma set_header_NoDup (hs : list (string * any)) (p : string) (x : any) :
  NoDup (map fst hs) -> NoDup (map fst (http.set_header hs p x)).
Proof.
  intros Hnd. rewrite set_header_keys. case_bool_decide as Hin; [done|].
  apply NoDup_app. split; [done|]. split; [|apply NoDup_singleton].
  by intros y Hy ->%list_elem_of_singleton.
Qed.

Lemma set_header_keeps (hs : list (string * any)) (p q : string) (x : any) :
  q ∈ map fst hs -> q ∈ map fst (http.set_header hs p x).
Proof.
  intros Hq. rewrite set_header_keys. case_bool_decide; [done|].
  apply elem_of_app. by left.
Qed.

Lemma getter_of_map {A B} (f : A -> B) (o : list (string * A)) (q : string) :
  getter_of (map (fun '(p, x) => (p, f x)) o) q = f <$> getter_of o q.
Proof.
  induction o as [|[p x] o IH]; [done|].
  cbn [map getter_of]. by destruct (String.eqb p q).
Qed.

Lemma keys_map {A B} (f : A -> B) (o : list (string * A)) :
  map fst (map (fun '(p, x) => (p, f x)) o) = map fst o.
Proof. induction o as [|[p x] o IH]; [done|]. cbn [map fst]. by rewrite IH. Qed.

(** X14: a toggle that is on overwrites what the caller configured under
    [Content-length], [Content-type] or [Date]; a header whose toggle is
    off, and every other header, is submitted under its key with its
    value substituted; no key is submitted twice when none was
    configured twice. *)
Theorem submitted_headers_toggles (u : http.Upload) :
  (toBooleanSafe (http.submitContentLength u) (Some true) = true ->
   getter_of (http.submitted_headers u) "Content-length"
   = Some (http.parsePlaceHolders u
             (JStr (toStringSafe_def (JNum (http.data_length u)) "0")) None))
  /\ (toBooleanSafe (http.submitContentType u) (Some true) = true ->
      getter_of (http.submitted_headers u) "Content-type"
      = Some (http.parsePlaceHolders u (JStr (http.contentType u)) None))
  /\ (toBooleanSafe (http.submitDate u) (Some true) = true ->
      getter_of (http.submitted_headers u) "Date"
      = Some (http.parsePlaceHolders u (JStr (http.now u)) None))
  /\ (forall q,
        (q = "Content-length" ->
         toBooleanSafe (http.submitContentLength u) (Some true) = false) ->
        (q = "Content-type" ->
         toBooleanSafe (http.submitContentType u) (Some true) = false) ->
        (q = "Date" -> toBooleanSafe (http.submitDate u) (Some true) = false) ->
        getter_of (http.submitted_headers u) q
        = (fun x => http.parsePlaceHolders u x None) <$> getter_of (http.headers u) q)
  /\ (NoDup (map fst (http.headers u)) ->
      NoDup (map fst (http.submitted_headers u))).
Proof.
  unfold http.submitted_headers.
  set (f := fun x => http.parsePlaceHolders u x None).
  change (fun '(p, x) => (p, http.parsePlaceHolders u x None))
    with (fun '(p, x) => (p : string, f x)).
  split; [|split; [|split; [|split]]].
  - intros Hl. rewrite getter_of_map, Hl.
    destruct (toBooleanSafe (http.submitContentType u) (Some true));
      destruct (toBooleanSafe (http.submitDate u) (Some true));
      rewrite ?set_header_getter; cbn [String.eqb Ascii.eqb Bool.eqb]; done.
  - intros Ht. rewrite getter_of_map, Ht.
    destruct (toBooleanSafe (http.submitDate u) (Some true));
      rewrite ?set_header_getter; cbn [String.eqb Ascii.eqb Bool.eqb]; done.
  - intros Hd. rewrite getter_of_map, Hd. by rewrite set_header_getter.
  - intros q Hl Ht Hd. rewrite getter_of_map. f_equal.
    repeat match goal with
      | |- getter_of (if ?b then _ else _) q = _ => destruct b eqn:?
      | |- getter_of (http.set_header _ ?p _) q = _ =>
          rewrite set_header_getter;
          destruct (String.eqb p q) eqn:?;
          [exfalso;
           match goal with
           | E : String.eqb _ q = true |- _ => apply String.eqb_eq in E as <-
           end;
           first [specialize (Hl eq_refl) | specialize (Ht eq_refl)
                 | specialize (Hd eq_refl)]; done|]
      end; done.
  - intros Hnd. rewrite keys_map.
    repeat match goal with
      | |- NoDup (map fst (if ?b then _ else _)) => destruct b
      | |- NoDup (map fst (http.set_header _ _ _)) => apply set_header_NoDup
      end; done.
Qed.

End MorePluginFacts.

(** ** [deployFile] *)

Section DeployFileFacts.
Context `{Helpers}.
Variable w : HttpPlugin.World.
Import HttpPlugin.

(** X15: the detected content type is never empty, has no white space
    around it and no capital letter in it, whatever the lookup gives or
    throws. *)
Theorem detectContentType_normal_form (file : string) :
  detectContentType w file ≠ ""
  /\ Str.trim (detectContentType w file) = detectContentType w file
  /\ Str.toLowerCase (detectContentType w file) = detectContentType w file.
Proof.
  unfold detectContentType.
  set (mime := toStringSafe _).
  destruct (String.eqb (Str.trim (Str.toLowerCase mime)) "") eqn:He.
  - done.
  - apply String.eqb_neq in He. split; [done|]. split.
    + apply TrimFacts.trim_idem.
    + rewrite TrimFacts.trim_toLowerCase.
      by rewrite TrimFacts.toLowerCase_idem.
Qed.

(** X16: with a user, the [Authorization] header is the Basic one made
    of the user and the password, whatever was configured under that
    key; without a user the configured one stays.  The header
    [X-vsdeploy-file] is the relative path when [submitFileHeader] is
    set.  Every configured key is kept. *)
Theorem effective_headers_authorization (target : DeployTargetHttp)
    (relativePath : string) :
  let configured := default [] (target_headers target) in
  let user := toStringSafe (target_user target) in
  let pwd := toStringSafe (target_password target) in
  (user ≠ "" ->
   getter_of (effective_headers w target relativePath) "Authorization"
   = Some (JStr ("Basic " +:+ base64 w (user +:+ ":" +:+ pwd))))
  /\ (user = "" ->
      getter_of (effective_headers w target relativePath) "Authorization"
      = getter_of configured "Authorization")
  /\ (toBooleanSafe (target_submitFileHeader target) (Some false) = true ->
      getter_of (effective_headers w target relativePath) "X-vsdeploy-file"
      = Some (JStr relativePath))
  /\ (forall q, q ∈ map fst configured ->
                q ∈ map fst (effective_headers w target relativePath)).
Proof.
  intros configured user pwd. unfold effective_headers.
  fold configured user pwd. split; [|split; [|split]].
  - intros Hu. rewrite (StrFacts.eqb_false _ _ Hu). cbn [negb].
    destruct (toBooleanSafe _ _); rewrite ?set_header_getter; done.
  - intros ->. cbn [String.eqb negb].
    destruct (toBooleanSafe _ _); rewrite ?set_header_getter; done.
  - intros ->. by rewrite set_header_getter.
  - intros q Hq.
    destruct (negb (String.eqb user "")); destruct (toBooleanSafe _ _);
      repeat apply set_header_keeps; done.
Qed.

(** X17: when [URL.parse] throws, [start_request] completes with what
    it throws.  When it returns, [start_request] either completes with
    the error that names the protocol of the URL, which is none of
    [http:] and [https:], or starts a request whose protocol is [http:]
    or [https:], whose host is not empty, whose method is the effective
    one and whose port is parsed from a text that is not empty: [80] or
    [443] when the URL names no port. *)
Theorem start_request_options (u : http.Upload) :
  match URL_parse w (http.substituted_url u) with
  | Throw e =>
      http.start_request (URL_parse w) (parseInt w) u
      = http.Completed (Some e)
  | Ret targetUrl =>
      match http.start_request (URL_parse w) (parseInt w) u with
      | http.Completed err =>
          exists protocol,
            err = Some (Error ("Protocol " +:+ protocol +:+ " is not supported!"))
            /\ protocol
               = Str.trim (Str.toLowerCase
                             (toStringSafe (http.url_protocol targetUrl)))
            /\ protocol ≠ "" /\ protocol ≠ "http:" /\ protocol ≠ "https:"
      | http.Requested o href =>
          href = http.substituted_url u
          /\ (http.req_protocol o = "http:" \/ http.req_protocol o = "https:")
          /\ http.req_host o ≠ ""
          /\ http.req_method o = http.method u
          /\ exists port,
               http.req_port o = parseInt w port
               /\ port ≠ ""
               /\ (Str.trim (toStringSafe (http.url_port targetUrl)) = "" ->
                   port = if String.eqb (http.req_protocol o) "http:"
                          then "80" else "443")
      end
  end.
Proof.
  unfold http.start_request.
  destruct (URL_parse w (http.substituted_url u)) as [targetUrl|e]; [|done].
  set (p0 := Str.trim (Str.toLowerCase (toStringSafe (http.url_protocol _)))).
  set (protocol := if String.eqb p0 "" then "http:" else p0).
  set (hostName := Str.trim (Str.toLowerCase (toStringSafe (http.url_hostname _)))).
  destruct (String.eqb protocol "http:") eqn:Hhttp;
    [|destruct (String.eqb protocol "https:") eqn:Hhttps]; cbn [orb negb].
  - apply String.eqb_eq in Hhttp. cbn [http.req_protocol http.req_host
      http.req_method http.req_port].
    split; [done|]. split; [by left|].
    split; [destruct (String.eqb hostName "") eqn:Hh;
            [done | by apply String.eqb_neq in Hh]|].
    split; [done|].
    eexists. split; [done|]. rewrite Hhttp. cbn [String.eqb Ascii.eqb Bool.eqb].
    destruct (String.eqb (Str.trim _) "") eqn:Hp.
    + split; [done|]. done.
    + apply String.eqb_neq in Hp. split; [done|]. done.
  - apply String.eqb_eq in Hhttps. cbn [http.req_protocol http.req_host
      http.req_method http.req_port].
    split; [done|]. split; [by right|].
    split; [destruct (String.eqb hostName "") eqn:Hh;
            [done | by apply String.eqb_neq in Hh]|].
    split; [done|].
    eexists. split; [done|]. rewrite Hhttps. cbn [String.eqb Ascii.eqb Bool.eqb].
    destruct (String.eqb (Str.trim _) "") eqn:Hp.
    + split; [done|]. done.
    + apply String.eqb_neq in Hp. split; [done|]. done.
  - apply String.eqb_neq in Hhttp, Hhttps. exists protocol.
    unfold protocol in *. destruct (String.eqb p0 "") eqn:Hp0; [done|].
    apply String.eqb_neq in Hp0. done.
Qed.

Lemma deliver_requests (a b : bool) (events : list NetEvent) :
  requests (deliver a b events) = [].
Proof.
  revert a b. induction events as [|[s m|e] events IH]; intros a b; [done| |].
  - cbn [deliver]. destruct a; [|apply IH]. cbn. apply IH.
  - cbn [deliver]. destruct b; [|apply IH].
    destruct (thrown_truthy e); cbn; apply IH.
Qed.

Lemma deliver_completions (a b : bool) (events : list NetEvent) :
  (length (completions (deliver a b events))
   <= (if a then 1 else 0) + (if b then 1 else 0))%nat.
Proof.
  revert a b. induction events as [|[s m|e] events IH]; intros a b.
  - cbn. lia.
  - cbn [deliver]. destruct a; [|apply IH].
    specialize (IH false b). unfold completions in *. cbn in *. lia.
  - cbn [deliver]. destruct b; [|apply IH].
    specialize (IH a false). unfold completions in *.
    destruct (thrown_truthy e); destruct a; cbn in *; lia.
Qed.

Lemma start_request_error (u : http.Upload) :
  match http.start_request (URL_parse w) (parseInt w) u with
  | http.Completed err => exists e, err = Some e /\ True
  | http.Requested _ _ => True
  end.
Proof.
  unfold http.start_request. destruct (URL_parse w _); [|by eexists].
  destruct (negb _); [by eexists | done].
Qed.

Lemma start_request_method (u : http.Upload) (o : http.RequestOptions)
    (href : string) :
  http.start_request (URL_parse w) (parseInt w) u = http.Requested o href ->
  http.req_method o = http.method u.
Proof.
  unfold http.start_request. destruct (URL_parse w _); [|done].
  destruct (negb _); [done|]. by intros [= <- _].
Qed.

Lemma send_cases (u : http.Upload) :
  (exists e, send w u = [Completed (Some e)])
  \/ (exists o href,
        http.start_request (URL_parse w) (parseInt w) u = http.Requested o href
        /\ HTTP_request w o = Ret ()
        /\ send w u = Request o :: written w ++ deliver true true (network w)).
Proof.
  unfold send, written.
  pose proof (start_request_error u) as Hs.
  destruct (http.start_request (URL_parse w) (parseInt w) u) as [err|o href].
  - destruct Hs as (p & -> & _). left. by eexists.
  - destruct (HTTP_request w o) as [[]|e] eqn:Hr; [|left; by eexists].
    right. by exists o, href.
Qed.

(** The part of a run before the file is sent. *)
Lemma deployFile_shape (file : string) (target : DeployTargetHttp) :
  exists pre,
    completions pre = [] /\ requests pre = []
    /\ ((exists e, deployFile w file target = pre ++ [Completed (Some e)])
        \/ (exists relativePath stats data_length,
              toRelativePath w file = Some relativePath
              /\ lstat w file = Ret stats
              /\ readFile w file = Ret data_length
              /\ pre = match onBeforeDeploy w with
                       | Some _ => [BeforeDeploy]
                       | None => []
                       end ++ [Lstat file; ReadFile file]
              /\ deployFile w file target
                 = pre ++ send w (upload_of w file relativePath target stats data_length))).
Proof.
  unfold deployFile.
  destruct (toRelativePath w file) as [relativePath|];
    [|exists []; split; [done|]; split; [done|]; left; by eexists].
  destruct (onBeforeDeploy w) as [[[]|e]|].
  - destruct (lstat w file) as [stats|err].
    + destruct (readFile w file) as [len|err].
      * exists [BeforeDeploy; Lstat file; ReadFile file].
        split; [done|]. split; [done|]. right. by exists relativePath, stats, len.
      * exists [BeforeDeploy; Lstat file; ReadFile file].
        split; [done|]. split; [done|]. left. by eexists.
    + exists [BeforeDeploy; Lstat file]. split; [done|]. split; [done|].
      left. by eexists.
  - exists [BeforeDeploy]. split; [done|]. split; [done|]. left. by eexists.
  - destruct (lstat w file) as [stats|err].
    + destruct (readFile w file) as [len|err].
      * exists [Lstat file; ReadFile file].
        split; [done|]. split; [done|]. right. by exists relativePath, stats, len.
      * exists [Lstat file; ReadFile file].
        split; [done|]. split; [done|]. left. by eexists.
    + exists [Lstat file]. split; [done|]. split; [done|]. left. by eexists.
Qed.

Lemma requests_app (l1 l2 : list Event) :
  requests (l1 ++ l2) = requests l1 ++ requests l2.
Proof. apply omap_app. Qed.

Lemma completions_app (l1 l2 : list Event) :
  completions (l1 ++ l2) = completions l1 ++ completions l2.
Proof. apply omap_app. Qed.

Lemma written_requests : requests (written w) = [].
Proof.
  unfold written. destruct (req_write w) as [[]|e]; [|done].
  by destruct (req_end w) as [[]|e].
Qed.

Lemma written_completions : (length (completions (written w)) <= 1)%nat.
Proof.
  unfold written. destruct (req_write w) as [[]|e]; [|cbn; lia].
  destruct (req_end w) as [[]|e]; cbn; lia.
Qed.

(** X18: a run in which no request is started calls [completed] once,
    with an error, and that call is the last thing that happens. *)
Theorem deployFile_without_request (file : string) (target : DeployTargetHttp) :
  requests (deployFile w file target) = [] ->
  exists pre e,
    deployFile w file target = pre ++ [Completed (Some e)]
    /\ completions pre = []
    /\ completions (deployFile w file target) = [Some e].
Proof.
  intros Hr.
  destruct (deployFile_shape file target) as (pre & Hc & Hq & [[e He]|Hs]).
  - exists pre, e. split; [done|]. split; [done|].
    by rewrite He, completions_app, Hc.
  - destruct Hs as (rp & stats & len & _ & _ & _ & _ & Hrun).
    destruct (send_cases (upload_of w file rp target stats len))
      as [[e He]|(o & href & _ & _ & Hsend)].
    + exists pre, e. rewrite Hrun, He. split; [done|]. split; [done|].
      by rewrite completions_app, Hc.
    + rewrite Hrun, Hsend, requests_app in Hr.
      apply app_eq_nil in Hr as [_ Hr]. done.
Qed.

(** X19: a run in which a request is started starts one request only,
    after [onBeforeDeploy], [lstat] and [readFile] and before any call of
    [completed].  It calls [completed] three times at most.  When
    [write] and [end] return, there is no call if the request emits
    nothing, the one call of the response if it emits a response only,
    and two calls if it emits a response and then an error. *)
Theorem deployFile_with_request (file : string) (target : DeployTargetHttp) :
  requests (deployFile w file target) ≠ [] ->
  exists pre o post,
    deployFile w file target = pre ++ Request o :: post
    /\ requests (deployFile w file target) = [o]
    /\ completions pre = []
    /\ pre = match onBeforeDeploy w with
             | Some _ => [BeforeDeploy]
             | None => []
             end ++ [Lstat file; ReadFile file]
    /\ http.req_method o = effective_method w target
    /\ (length (completions post) <= 3)%nat
    /\ (req_write w = Ret () -> req_end w = Ret () ->
        (network w = [] -> completions post = [])
        /\ (forall s m, network w = [Response s m] ->
                        completions post = [http.on_response s m])
        /\ (forall e, network w = [ErrorEvent e] -> thrown_truthy e = true ->
                      completions post = [Some e])
        /\ (forall s m e rest,
              network w = Response s m :: ErrorEvent e :: rest ->
              thrown_truthy e = true ->
              completions post = [http.on_response s m; Some e])).
Proof.
  intros Hr.
  destruct (deployFile_shape file target) as (pre & Hc & Hq & [[e He]|Hs]).
  { exfalso. apply Hr. by rewrite He, requests_app, Hq. }
  destruct Hs as (rp & stats & len & _ & _ & _ & Hpre & Hrun).
  destruct (send_cases (upload_of w file rp target stats len))
    as [[e He]|(o & href & Hstart & _ & Hsend)].
  { exfalso. apply Hr. by rewrite Hrun, He, requests_app, Hq. }
  exists pre, o, (written w ++ deliver true true (network w)).
  split; [by rewrite Hrun, Hsend|].
  split.
  { rewrite Hrun, Hsend, requests_app, Hq.
    change (requests (Request o :: ?l)) with (o :: requests l).
    by rewrite requests_app, written_requests, deliver_requests. }
  split; [done|]. split; [done|].
  split.
  { by rewrite (start_request_method _ _ _ Hstart). }
  split.
  { rewrite completions_app, length_app.
    pose proof written_completions.
    pose proof (deliver_completions true true (network w)).
    cbn in *. lia. }
  intros Hw He. unfold written. rewrite Hw, He. cbn [app].
  split; [by intros ->|]. split; [by intros s m ->|].
  split.
  - intros e -> Ht. cbn [deliver]. by rewrite Ht.
  - intros s m e rest -> Ht. cbn [deliver]. rewrite Ht. cbn [app].
    unfold completions. cbn [omap]. f_equal. f_equal.
    induction rest as [|[]]; done.
Qed.

End DeployFileFacts.

(** * The statements on concrete Values *)

#[local] Existing Instance Spec_helpers.helpers.

(** A string with one token, [b], against a Value named [a]. *)
Lemma replaceWithValues_without_match_witness :
  replaceWithValues (H := Spec_helpers.helpers) Example.value_
    [Example.static "a" (JStr "1")] (JStr "see ${b}") initial_State
  = (Ret (JStr "see ${b}"), initial_State)
  /\ replaceWithValues (H := Spec_helpers.helpers) Example.value_
       [] (JStr "${x}") initial_State
     = (Ret (JStr "${x}"), initial_State).
Proof.
  apply (replaceWithValues_without_match (H := Spec_helpers.helpers)).
  intros v n Hv Hn.
  apply OccursFacts.occurs_candidates in Hn. vm_compute in Hn.
  apply list_elem_of_singleton in Hn as ->.
  apply list_elem_of_singleton in Hv as ->.
  vm_compute. discriminate.
Defined.

(** The accessor of a File Value whose file cannot be read. *)
Lemma unreadable_always_throws (nm : string) :
  always_throws Example.value_ (Example.unreadable nm).
Proof. intros st. by eexists _, _. Qed.

Lemma replaceWithValues_accessor_throws_witness :
  let v := Example.unreadable "bad" in
  let vs1 := [Example.static "x" (JStr "1")] in
  let vs2 := [Example.static "good" (JStr "G")] in
  always_throws Example.value_ v
  /\ (forall st, exists e, Example.value_ v st = (Throw e, st))
  /\ replaceWithValues Example.value_ (vs1 ++ v :: vs2)
       (JStr "${x} ${bad} ${good}") initial_State
     = (Ret (JStr "1 ${bad} G"), initial_State)
  /\ (exists st'', callback Example.value_ v (normalizeString (name v))
                     "${bad}" "bad" initial_State = (Ret "${bad}", st''))
  /\ (forall str st, exists str1 st1 st2,
        forEach_pass Example.value_ vs1 str st = (Ret str1, st1)
        /\ pass Example.value_ v str1 st1 = (Ret str1, st2)
        /\ forEach_pass Example.value_ (vs1 ++ v :: vs2) str st
           = forEach_pass Example.value_ vs2 str1 st2)
  /\ (forall val st,
        replaceWithValues Example.value_ (vs1 ++ v :: vs2) val st
        = replaceWithValues Example.value_ (vs1 ++ vs2) val st).
Proof.
  intros v vs1 vs2.
  assert (Hpure : forall st, exists e, Example.value_ v st = (Throw e, st))
    by (intros st; by eexists).
  destruct (replaceWithValues_accessor_throws Example.value_ v vs1 vs2)
    as (Hcb & Hpass & _ & Hwithout).
  split; [apply unreadable_always_throws|]. split; [exact Hpure|].
  split; [reflexivity|]. split; [|split].
  - exact (Hcb _ "${bad}" "bad" initial_State _ initial_State eq_refl).
  - exact (Hpass (unreadable_always_throws "bad")).
  - exact (Hwithout Hpure).
Defined.

(** Two Values named [n]: the token becomes the text of the first. *)
Lemma replaceWithValues_first_value_wins_witness :
  replaceWithValues (H := Spec_helpers.helpers) Example.value_
    ([Example.static "other" (JStr "o")]
       ++ Example.static "n" (JStr "first") :: [Example.static " N " (JStr "second")])
    (JStr ("url/" +:+ Placeholder.token "n" +:+ "/end")) initial_State
  = (Ret (JStr ("url/" +:+ "first" +:+ "/end")), initial_State).
Proof.
  apply (replaceWithValues_first_value_wins (H := Spec_helpers.helpers)
           Example.value_ _ _ _ "url/" "n" "/end" (JStr "first")).
  - reflexivity.
  - reflexivity.
  - reflexivity.
  - intros v Hv. apply list_elem_of_singleton in Hv as ->. vm_compute. discriminate.
  - reflexivity.
  - reflexivity.
  - reflexivity.
Defined.

(** C2 as stated fails: with two Values named [n], the token does not
    become the text of the later one. *)
Lemma replaceWithValues_later_value_does_not_win :
  let a := Example.static "n" (JStr "first") in
  let b := Example.static "n" (JStr "second") in
  normalizeString (name a) = normalizeString (name b)
  /\ Example.value_ b initial_State = (Ret (JStr "second"), initial_State)
  /\ replaceWithValues (H := Spec_helpers.helpers) Example.value_ [a; b]
       (JStr "${n}") initial_State
     = (Ret (JStr "first"), initial_State)
  /\ replaceWithValues (H := Spec_helpers.helpers) Example.value_ [a; b]
       (JStr "${n}") initial_State
     ≠ (Ret (JStr "second"), initial_State).
Proof.
  intros a b. split; [reflexivity|]. split; [reflexivity|].
  split; [reflexivity|]. vm_compute. discriminate.
Qed.

(** The Value made of the static definition: position 0, id 1. *)
Lemma toValueObjects_ids_witness :
  let R := toValueObjects_array Example.four_entries None ∅ in
  let h' := toValueObjects_heap Example.four_entries None ∅ in
  let v := wire 0 1 (Example.static "x" (JStr "1")) in
  R !! 0%nat = Some v
  /\ ((exists j, omap (fun i => i) Example.four_entries !! j = Some (item v)
                 /\ id v = JNum (Z.of_nat j)
                 /\ 0%nat = count_recognized None
                              (take j (omap (fun i => i) Example.four_entries)))
      /\ (forall k' w, R !! k' = Some w -> k' ≠ 0%nat -> id w ≠ id v)
      /\ otherValues h' v = filter (fun x => Is_true (strict_neq (id x) (id v))) R
      /\ otherValues h' v = take 0 R ++ drop 1 R).
Proof.
  intros R h' v. split; [reflexivity|].
  apply (toValueObjects_ids None Example.four_entries ∅ 0 v). reflexivity.
Defined.

(** C3 as stated fails: an entry with an unknown type tag before it makes
    the id of a Value larger than its position in the produced array. *)
Lemma toValueObjects_id_is_not_position :
  exists v,
    toValueObjects_array Example.four_entries None ∅ !! 0%nat = Some v
    /\ id v = JNum 1
    /\ id v ≠ JNum 0.
Proof.
  exists (wire 0 1 (Example.static "x" (JStr "1"))).
  split; [reflexivity|]. split; [reflexivity | discriminate].
Qed.

Lemma toValueObjects_siblings_witness :
  let R := toValueObjects_array Example.four_entries None ∅ in
  let h' := toValueObjects_heap Example.four_entries None ∅ in
  let v := wire 0 1 (Example.static "x" (JStr "1")) in
  v ∈ R
  /\ otherValues h' v
     = [wire 0 2 (new EnvValue (Some (Example.env_item "HOME" undefined)) None)]
  /\ ((v ∉ otherValues h' v)
      /\ (forall w, w ∈ R -> w ≠ v -> w ∈ otherValues h' v)
      /\ (forall w, w ∈ otherValues h' v -> w ∈ R)).
Proof.
  intros R h' v.
  assert (Hv : v ∈ R) by (apply list_elem_of_lookup; by exists 0%nat).
  split; [exact Hv|]. split; [reflexivity|].
  exact (toValueObjects_siblings None Example.four_entries ∅ v Hv).
Defined.

(** An Environment Value without alias, one with the alias [ed] for the
    variable [EDITOR], and one for a name that differs in letter case from
    the variable [Path]. *)
Lemma EnvValue_name_and_lookup_witness :
  let plain := new EnvValue (Some (Example.env_item "HOME" undefined)) None in
  let aliased := new EnvValue (Some (Example.env_item "EDITOR" (JStr "ed"))) None in
  let upper := new EnvValue (Some (Example.env_item "PATH" (JStr "p"))) None in
  name plain = JStr "HOME"
  /\ name aliased = JStr "ed"
  /\ Example.value_ aliased initial_State = (Ret (JStr "vi"), initial_State)
  /\ Example.value_ upper initial_State = (Ret undefined, initial_State).
Proof.
  intros plain aliased upper.
  destruct (EnvValue_name_and_lookup Example.platform ∅ 2 plain initial_State eq_refl)
    as (Hname & _).
  destruct (EnvValue_name_and_lookup Example.platform ∅ 2 aliased initial_State eq_refl)
    as (_ & Halias & _ & Hfound & _).
  destruct (EnvValue_name_and_lookup Example.platform ∅ 2 upper initial_State eq_refl)
    as (_ & _ & _ & _ & Hmissing).
  split; [exact (Hname eq_refl)|]. split; [exact (Halias eq_refl)|]. split.
  - apply (Hfound [("HOME", "/home/u")] " EDITOR " "vi" [("Path", "/usr/bin")]).
    + reflexivity.
    + reflexivity.
    + intros q y Hin. apply list_elem_of_singleton in Hin.
      injection Hin as -> ->. vm_compute. discriminate.
  - apply Hmissing. intros q y Hin. vm_compute in Hin.
    repeat (apply elem_of_cons in Hin as [Hin|Hin];
            [injection Hin as -> ->; vm_compute; discriminate|]).
    by apply elem_of_nil in Hin.
Defined.

(** A Script Value whose module exports no [getValue]. *)
Lemma ScriptValue_value_undefined_witness :
  let me := new ScriptValue (Some (Example.script_item "s" (JStr "plain.js"))) None in
  class_of me = ScriptValue
  /\ no_getValue Example.platform (JStr "plain.js")
  /\ Example.value_ me initial_State = (Ret undefined, initial_State).
Proof.
  intros me.
  assert (Hno : no_getValue Example.platform (JStr "plain.js")).
  { right. right. exists "/ws/plain.js". split; [reflexivity|].
    right. right. by eexists. }
  split; [reflexivity|]. split; [exact Hno|].
  destruct (ScriptValue_value_undefined Example.platform ∅ 2 me initial_State eq_refl)
    as (script & st1 & Hs & Hundef & _).
  assert (Hs' : replaceWithValues (value Example.platform ∅ 2) (otherValues ∅ me)
                  (JStr (toStringSafe (deploy_contracts.script (item me))))
                  initial_State
                = (Ret (JStr "plain.js"), initial_State)) by reflexivity.
  rewrite Hs' in Hs. injection Hs as <- <-. exact (Hundef Hno).
Defined.

(** C10 as stated fails: the module [five.js] exports no function under
    [getValue], and the getter of a Script Value over it throws. *)
Lemma ScriptValue_value_not_a_function :
  let me := new ScriptValue (Some (Example.script_item "s" (JStr "five.js"))) None in
  let value_ := value (H := Spec_helpers.helpers) Sample.script_platform ∅ 3 in
  class_of me = ScriptValue
  /\ loadModule Sample.script_platform "/ws/five.js"
     = Ret (Some {| getValue := NotFunction (JNum 5) |})
  /\ (forall f, NotFunction (JNum 5) ≠ Function f)
  /\ value_ me initial_State
     = (Throw (TypeError "scriptModule.getValue is not a function"),
        initial_State)
  /\ value_ me initial_State ≠ (Ret undefined, initial_State).
Proof.
  intros me value_. split; [reflexivity|]. split; [reflexivity|].
  split; [discriminate|]. split; [reflexivity|]. vm_compute. discriminate.
Qed.

(** Before any reset, a Script Value whose [getValue] reads [args.state]. *)
Lemma script_state_before_reset_witness :
  let me := new ScriptValue (Some (Example.script_item "s" (JStr "reads.js"))) None in
  class_of me = ScriptValue
  /\ scriptValueStates initial_State = None
  /\ exists msg st2,
       Example.value_ me initial_State = (Throw (TypeError msg), st2).
Proof.
  intros me. split; [reflexivity|]. split; [reflexivity|].
  destruct (script_state_before_reset Example.platform ∅) as (_ & _ & Hthrows & _).
  apply (Hthrows 2%nat me initial_State (JStr "reads.js") initial_State
           "/ws/reads.js"
           (fun args => x ← args_state_get args; mret x)).
  - reflexivity.
  - reflexivity.
  - split; [reflexivity|]. split; [reflexivity|]. split; [reflexivity|].
    by exists Example.reads_state.
  - reflexivity.
  - left. by exists (fun _ x => mret x).
Defined.


(** ** More statements on concrete Values *)

(** Two of the three tokens name the Value: the accessor runs twice. *)
Lemma pass_runs_accessor_per_match_witness :
  pass Sample.counting (Example.static "n" (JStr "1")) "${n}-${ N }-${m}"
    initial_State
  = (Ret "v-v-${m}",
     {| globalScriptValueState := None; scriptValueStates := None;
        getValue_calls := ["tick"; "tick"] |}).
Proof.
  exact (pass_runs_accessor_per_match Sample.counting
           (Example.static "n" (JStr "1")) (JStr "v")
           (fun st => (log_getValue "tick" st).2)
           "${n}-${ N }-${m}" initial_State (fun st0 => eq_refl)).
Defined.

(** Two siblings called [a] and one without name. *)
Lemma define_others_last_wins_witness :
  let first := Example.static "a" (JStr "1") in
  let last := Example.static "a" (JStr "3") in
  let ovs := [first; Example.static "" (JStr "2"); last] in
  map fst (define_others Example.value_ ovs) = ["a"]
  /\ getter_of (define_others Example.value_ ovs) "b" = None
  /\ getter_of (define_others Example.value_ ovs) "a"
     = Some (Example.value_ last).
Proof.
  intros first last ovs.
  destruct (define_others_last_wins Example.value_ ovs)
    as (_ & _ & Hnone & Hlast).
  split; [reflexivity|]. split.
  - apply Hnone. intros ov Hov.
    repeat (apply elem_of_cons in Hov as [->|Hov]; [vm_compute; discriminate|]).
    by apply elem_of_nil in Hov.
  - apply (Hlast [first; Example.static "" (JStr "2")] last []).
    + reflexivity.
    + vm_compute. discriminate.
    + intros ov Hov. by apply elem_of_nil in Hov.
Defined.

Lemma toValueObjects_classes_witness :
  let v := wire 0 1 (Example.static "x" (JStr "1")) in
  v ∈ toValueObjects_array Example.four_entries None ∅
  /\ class_of v = StaticValue
  /\ normalizeString (deploy_contracts.type (item v)) = "static"
  /\ _config v = None.
Proof.
  intros v.
  assert (Hv : v ∈ toValueObjects_array Example.four_entries None ∅)
    by (apply list_elem_of_lookup; by exists 0%nat).
  destruct (toValueObjects_classes None Example.four_entries ∅ v Hv)
    as [_ Hcfg].
  split; [exact Hv|]. split; [reflexivity|]. split; [reflexivity|].
  exact Hcfg.
Defined.

(** A second call leaves the array of the first call as it is. *)
Lemma toValueObjects_leaves_other_arrays_witness :
  let h := toValueObjects_heap Example.four_entries None ∅ in
  let items := [Some (Example.static_item "y" (JStr "2"))] in
  let v := wire 0 1 (Example.static "x" (JStr "1")) in
  (toValueObjects items None h).1 = 1%nat
  /\ toValueObjects_heap items None h !! 0%nat = h !! 0%nat
  /\ otherValues (toValueObjects_heap items None h) v = otherValues h v.
Proof.
  intros h items v.
  destruct (toValueObjects_leaves_other_arrays None items h)
    as (_ & Hkeep & Hothers).
  split; [reflexivity|]. split.
  - apply Hkeep. by eexists.
  - apply (Hothers v 0%nat); [reflexivity | by eexists].
Defined.

(** The Value [x] of the sample deployer has the configured [cwd] and
    the three built-in Values as siblings. *)
Lemma getValues_siblings_witness :
  let v := wire 0 0 (Example.static "x" (JStr "1")) in
  configured (fun l => l) Sample.deployer ∅ !! 0%nat = Some v
  /\ map name (otherValues (getValues_heap (fun l => l) Sample.deployer ∅) v)
     = [JStr "cwd"; JStr "cwd"; JStr "homeDir"; JStr "workspaceRoot"].
Proof.
  intros v.
  assert (Hv : configured (fun l => l) Sample.deployer ∅ !! 0%nat = Some v)
    by reflexivity.
  split; [exact Hv|].
  destruct (getValues_siblings (fun l => l) Sample.deployer ∅ 0 v Hv)
    as [-> _].
  reflexivity.
Defined.

(** The configured Value called [cwd] does not reach [$others]. *)
Lemma getValues_others_builtins_witness :
  let v := wire 0 0 (Example.static "x" (JStr "1")) in
  configured (fun l => l) Sample.deployer ∅ !! 0%nat = Some v
  /\ getter_of
       (define_others Example.value_
          (otherValues (getValues_heap (fun l => l) Sample.deployer ∅) v))
       "cwd"
     = Some (Example.value_ builtin_cwd).
Proof.
  intros v.
  assert (Hv : configured (fun l => l) Sample.deployer ∅ !! 0%nat = Some v)
    by reflexivity.
  split; [exact Hv|].
  by destruct (getValues_others_builtins (fun l => l) Sample.deployer ∅
                 Example.value_ 0 v Hv) as [-> _].
Defined.

(** The configured [cwd] is for [ Host-A ], which is the host [host-a]
    once normalized. *)
Lemma getValues_respects_isFor_witness :
  let v := wire 0 1 (Example.static "cwd" (JStr "mine")) in
  v ∈ configured (fun l => l) Sample.deployer ∅
  /\ exists entry,
       Some entry ∈ config_values Sample.deployer
       /\ item v = definition entry
       /\ (validHosts entry = []
           \/ exists s, s ∈ validHosts entry
                        /\ deployer_name Sample.deployer = JStr s).
Proof.
  intros v.
  assert (Hv : v ∈ configured (fun l => l) Sample.deployer ∅)
    by (apply list_elem_of_lookup; by exists 1%nat).
  split; [exact Hv|].
  exact (getValues_respects_isFor (fun l => l) Sample.deployer ∅ v
           (fun l x Hx => Hx) Hv).
Defined.

(** After [resetScriptStates], a Script Value stores a text that another
    Script Value over the same file reads. *)
Lemma args_state_round_trip_witness :
  let st := (resetScriptStates initial_State).2 in
  let writer := new ScriptValue (Some (Example.script_item "w" (JStr "s.js"))) None in
  let reader := new ScriptValue (Some (Example.script_item "r" (JStr "s.js"))) None in
  is_Some (scriptValueStates st)
  /\ exists st',
       args_state_set (script_args Example.platform ∅ Example.value_ writer "/ws/s.js")
         (JStr "kept") st = (Ret (), st')
       /\ args_state_get (script_args Example.platform ∅ Example.value_ reader "/ws/s.js")
            st' = (Ret (JStr "kept"), st').
Proof.
  intros st writer reader.
  assert (Hs : is_Some (scriptValueStates st)) by (by eexists).
  split; [exact Hs|].
  destruct (args_state_round_trip Example.platform ∅ Example.value_
              writer reader "/ws/s.js" "/ws/t.js" (JStr "kept") st Hs)
    as (st' & Hset & Hget & _).
  by exists st'.
Defined.

(** The file [a.txt] of the workspace holds [hello]. *)
Lemma FileValue_value_cases_witness :
  reads_file Sample.platform ∅ (value Sample.platform ∅ 3) Sample.text_file
    initial_State initial_State "/ws/a.txt"
  /\ FileValue_value Sample.platform ∅ (value Sample.platform ∅ 3)
       Sample.text_file initial_State
     = (Ret (JStr "hello"), initial_State).
Proof.
  assert (Hr : reads_file Sample.platform ∅ (value Sample.platform ∅ 3)
                 Sample.text_file initial_State initial_State "/ws/a.txt").
  { exists (JStr "a.txt"). split; reflexivity. }
  split; [exact Hr|].
  destruct (FileValue_value_cases Sample.platform ∅ (value Sample.platform ∅ 3)
              Sample.text_file initial_State initial_State "/ws/a.txt" Hr)
    as (_ & _ & Htext).
  exact (Htext "hello" "hello" eq_refl eq_refl eq_refl).
Defined.

Lemma on_response_success_iff_witness :
  http.on_response 204 "No Content" = None.
Proof. apply (on_response_success_iff 204 "No Content"). lia. Defined.

Lemma parsePlaceHolders_plain_witness :
  Str.mem "$" "text/plain" = false
  /\ http.parsePlaceHolders Sample.upload (JStr "text/plain") None = "text/plain".
Proof.
  split; [reflexivity|].
  exact (parsePlaceHolders_plain Sample.upload "text/plain" None eq_refl).
Defined.

(** No toggle is set: the three headers are submitted, and the
    configured header has its placeholder replaced. *)
Lemma submitted_headers_toggles_witness :
  getter_of (http.submitted_headers Sample.upload) "Content-length" = Some "12"
  /\ getter_of (http.submitted_headers Sample.upload) "Content-type"
     = Some "text/plain"
  /\ getter_of (http.submitted_headers Sample.upload) "X-Name"
     = Some "name=my file.txt;"
  /\ NoDup (map fst (http.submitted_headers Sample.upload)).
Proof.
  destruct (submitted_headers_toggles Sample.upload)
    as (Hlen & Htype & _ & Hother & Hnd).
  split; [exact (Hlen eq_refl)|]. split; [exact (Htype eq_refl)|].
  split.
  - rewrite (Hother "X-Name"); [reflexivity | discriminate..].
  - apply Hnd. apply (bool_decide_unpack _). by vm_compute.
Defined.

(** The user [u] of the sample target replaces the configured
    [Authorization] header. *)
Lemma effective_headers_authorization_witness :
  getter_of (HttpPlugin.effective_headers (Sample.world (Ret Sample.stats) [])
               Sample.target "/out/my file.txt") "Authorization"
  = Some (JStr "Basic dTpwdw==").
Proof.
  destruct (effective_headers_authorization
              (Sample.world (Ret Sample.stats) []) Sample.target
              "/out/my file.txt") as (Hauth & _).
  apply Hauth. discriminate.
Defined.

(** [URL.parse] returns for the sample upload and throws for an upload
    to [http://%@host/]. *)
Lemma start_request_options_witness :
  (exists o,
     http.start_request Example.URL_parse Example.parseInt Sample.upload
     = http.Requested o "http://host/up/my%20file.txt"
     /\ http.req_protocol o = "http:"
     /\ http.req_host o ≠ ""
     /\ http.req_method o = "POST"
     /\ http.req_port o = Example.parseInt "80")
  /\ http.start_request Sample.URL_parse Example.parseInt Sample.undecodable
     = http.Completed
         (Some (Thrown (JObject [("name", JStr "URIError");
                                 ("message", JStr "URI malformed")]))).
Proof.
  split.
  - pose proof (start_request_options
                  (Sample.world (Ret Sample.stats) []) Sample.upload) as Ho.
    change (HttpPlugin.URL_parse _) with Example.URL_parse in Ho.
    change (HttpPlugin.parseInt _) with Example.parseInt in Ho.
    change (Example.URL_parse (http.substituted_url Sample.upload))
      with (Ret (A := http.Url)
              {| http.url_protocol := JStr "http:";
                 http.url_hostname := JStr "host"; http.url_port := null;
                 http.url_path := JStr "/up/my%20file.txt" |}) in Ho.
    destruct (http.start_request Example.URL_parse Example.parseInt Sample.upload)
      as [err|o href] eqn:E.
    { vm_compute in E. discriminate. }
    destruct Ho as (-> & Hp & Hh & Hm & port & Hport & _ & Hdefault).
    exists o. split; [reflexivity|].
    assert (Hhttp : http.req_protocol o = "http:").
    { vm_compute in E. by injection E as <-. }
    split; [exact Hhttp|]. split; [exact Hh|]. split; [rewrite Hm; reflexivity|].
    rewrite Hport, (Hdefault eq_refl), Hhttp. reflexivity.
  - exact (start_request_options Sample.failing_world Sample.undecodable).
Defined.

(** [lstat] fails: no request, one call of [completed]. *)
Lemma deployFile_without_request_witness :
  let w := Sample.world (Throw (Error "ENOENT")) [] in
  HttpPlugin.requests (HttpPlugin.deployFile w Sample.file Sample.target) = []
  /\ exists pre e,
       HttpPlugin.deployFile w Sample.file Sample.target
       = pre ++ [HttpPlugin.Completed (Some e)]
       /\ HttpPlugin.completions pre = []
       /\ HttpPlugin.completions (HttpPlugin.deployFile w Sample.file Sample.target)
          = [Some e].
Proof.
  intros w. split; [reflexivity|].
  exact (deployFile_without_request w Sample.file Sample.target eq_refl).
Defined.

(** The server answers 500 and the socket fails then: [completed] is
    called twice. *)
Lemma deployFile_with_request_witness :
  let w := Sample.world (Ret Sample.stats)
             [HttpPlugin.Response 500 "Oops"; HttpPlugin.ErrorEvent (Error "socket")] in
  exists pre o post,
    HttpPlugin.deployFile w Sample.file Sample.target
    = pre ++ HttpPlugin.Request o :: post
    /\ HttpPlugin.completions pre = []
    /\ http.req_method o = "POST"
    /\ HttpPlugin.completions post
       = [Some (Error "No success: [500] 'Oops'"); Some (Error "socket")].
Proof.
  intros w.
  destruct (deployFile_with_request w Sample.file Sample.target)
    as (pre & o & post & Hrun & _ & Hpre & _ & Hm & _ & Hnet).
  { vm_compute. discriminate. }
  exists pre, o, post. split; [exact Hrun|]. split; [exact Hpre|].
  split; [rewrite Hm; reflexivity|].
  destruct (Hnet eq_refl eq_refl) as (_ & _ & _ & Htwo).
  exact (Htwo 500 "Oops" (Error "socket") [] eq_refl eq_refl).
Defined.

(** * The definitions on small inputs *)

Example pieces_nested :
  Placeholder.pieces "a${x${n}$"
  = [Placeholder.Lit "a"; Placeholder.Tok "x${n"; Placeholder.Lit "$"].
Proof. reflexivity. Qed.

Example pieces_unclosed :
  Placeholder.pieces "${a" = Placeholder.lits "${a".
Proof. reflexivity. Qed.

Example pieces_empty_name : Placeholder.pieces "${}" = [Placeholder.Tok ""].
Proof. reflexivity. Qed.

Example replaceWithValues_null :
  replaceWithValues Example.value_ [Example.static "a" (JStr "1")] null initial_State
  = (Ret null, initial_State).
Proof. reflexivity. Qed.

Example replaceWithValues_normalizes_names :
  replaceWithValues Example.value_ [Example.static "Dir" (JStr "/tmp")]
    (JStr "${ DIR }/x ${dir2}") initial_State
  = (Ret (JStr "/tmp/x ${dir2}"), initial_State).
Proof. reflexivity. Qed.

Example replaceWithValues_later_value_after_throw :
  replaceWithValues Example.value_
    [Example.unreadable "n"; Example.static "n" (JStr "second")]
    (JStr "${n}") initial_State
  = (Ret (JStr "second"), initial_State).
Proof. reflexivity. Qed.

Example trim_spaces : Str.trim "  a b   " = "a b".
Proof. reflexivity. Qed.

Example encodeURIComponent_reserved :
  URI.encodeURIComponent (JStr "a b/c?d=e&f~(g)") = "a%20b%2Fc%3Fd%3De%26f~(g)".
Proof. reflexivity. Qed.

Example encodeURIComponent_number : URI.encodeURIComponent (JNum 1024) = "1024".
Proof. reflexivity. Qed.

Example replace_first_match_only :
  JSReplace.replace "${vsdeploy-file}" "f" "${VSDEPLOY-FILE} ${vsdeploy-file}"
  = "f ${vsdeploy-file}".
Proof. reflexivity. Qed.

Example replace_dollar_patterns :
  JSReplace.replace "${vsdeploy-file}" "[$&|$1$2$3$4|$5|$10|$01|$$|$`|$']"
    "ab${vsdeploy-FILE}cd"
  = "ab[${vsdeploy-FILE}|${vsdeploy-FILE}|$5|$0|$|$|ab|cd]cd".
Proof. reflexivity. Qed.

Example on_response_statuses :
  http.on_response 204 "No Content" = None
  /\ http.on_response 503 "Service Unavailable"
     = Some (Error "No success: [503] 'Service Unavailable'")
  /\ http.on_response 302 "Found" = Some (Error "No success: [302] 'Found'")
  /\ http.on_response 100 "Continue" = Some (Error "No success: [100] 'Continue'").
Proof. repeat split; reflexivity. Qed.

Example script_state_after_reset :
  let me := new ScriptValue (Some (Example.script_item "s" (JStr "writes.js"))) None in
  (_ ← resetScriptStates; _ ← Example.value_ me; state_get "/ws/writes.js")
    initial_State
  = (Ret (JStr "s"),
     {| globalScriptValueState := Some ∅;
        scriptValueStates := Some {["/ws/writes.js" := JStr "s"]};
        getValue_calls := ["/ws/writes.js"] |}).
Proof. reflexivity. Qed.

Example code_value_cwd :
  let item := Example.definition (JStr "cwd") (JStr "code") in
  let cwd :=
    new CodeValue
      (Some {| deploy_contracts.name := deploy_contracts.name item;
               deploy_contracts.type := deploy_contracts.type item;
               deploy_contracts.value := undefined;
               deploy_contracts.code := JStr "process.cwd()";
               deploy_contracts.alias := undefined;
               deploy_contracts.file := undefined;
               deploy_contracts.asBinary := undefined;
               deploy_contracts.encoding := undefined;
               deploy_contracts.usePlaceholders := undefined;
               deploy_contracts.script := undefined;
               deploy_contracts.options := undefined |}) None in
  replaceWithValues Example.value_ [cwd] (JStr "${cwd}/out") initial_State
  = (Ret (JStr "/ws/out"), initial_State).
Proof. reflexivity. Qed.

(** A run of [deployFile] that the server answers with 201. *)
Example deployFile_created :
  HttpPlugin.deployFile
    (Sample.world (Ret Sample.stats) [HttpPlugin.Response 201 "Created"])
    Sample.file Sample.target
  = [HttpPlugin.BeforeDeploy; HttpPlugin.Lstat Sample.file;
     HttpPlugin.ReadFile Sample.file;
     HttpPlugin.Request
       {| http.req_headers :=
            [("Authorization", "Basic dTpwdw==");
             ("X-Name", "name=my file.txt;"); ("Content-length", "12");
             ("Content-type", "text/plain");
             ("Date", "Tue, 03 Nov 2026 10:00:00 GMT")];
          http.req_host := "host"; http.req_method := "POST";
          http.req_path := JStr "/up/my%20file.txt";
          http.req_port := JNum 80; http.req_protocol := "http:" |};
     HttpPlugin.Completed None].
Proof. reflexivity. Qed.
